(** * hgt2png: a shallow embedding of [hgt2png.cpp]

    The program reads a raw HGT raster (big-endian signed 16-bit samples),
    brings it to the host byte order, scans it for its elevation range,
    rescales every sample to an unsigned 16-bit value, restores big-endian
    order and writes one PNG per tile of a [rows] x [cols] subdivision.

    The raster is modelled as the program holds it: a [std::vector<uint8_t>]
    becomes a [list byte] that the loops read and update by index; an
    [int] is an integer of 32 bits, and what the program computes on the
    numbers of its command line ([atoi], [width * height], [width - 1],
    [height - 1], the product and the difference of a row pointer) is
    undefined, as in the source, when the result is not an [int];
    [double] values are IEEE 754 binary64 numbers in the sense of the
    Standard Library's [SpecFloat]. *)

From Stdlib Require Import ZArith Bool Lia List.
From Stdlib Require Import Strings.Byte Strings.Ascii Strings.String DecimalString.
From Stdlib Require Import Floats.SpecFloat.
From stdpp Require Import base option list.

Local Open Scope Z_scope.

(** * The type [int] *)

Module CInt.

(** [INT_MIN] and [INT_MAX] of a 32-bit [int]. *)
Definition min : Z := - 2 ^ 31.
Definition max : Z := 2 ^ 31 - 1.

Definition in_range (z : Z) : bool := (min <=? z) && (z <=? max).

(** The result of an operation on [int] whose exact value is [z]: when
    [z] is not an [int] the operation is undefined in the source and is
    [None] here. *)
Definition checked (z : Z) : option Z := if in_range z then Some z else None.

Definition add (a b : Z) : option Z := checked (a + b).
Definition sub (a b : Z) : option Z := checked (a - b).
Definition mul (a b : Z) : option Z := checked (a * b).

End CInt.

(** * The raster buffer *)

Module Raster.

(** [raster[i]] for an index inside the vector; an access outside it is
    undefined in the source and is [None] here. *)
Definition load (raster : list byte) (i : nat) : option byte := raster !! i.

(** [raster[i] = b]. *)
Definition store (raster : list byte) (i : nat) (b : byte) : list byte :=
  <[i:=b]> raster.

(** The values of the loop variable of
    [for (auto i = 0; i < data_size; i += sizeof(std::int16_t))]. *)
Definition cell_offsets (data_size : Z) : list nat :=
  map (fun k => (2 * k)%nat) (seq 0 (Z.to_nat ((data_size + 1) / 2))).

(** Running a loop body over the successive values of its index, the body
    threading the loop state and failing where the source is undefined. *)
Fixpoint for_each {S : Type} (body : nat -> S -> option S)
         (indices : list nat) (s : S) : option S :=
  match indices with
  | [] => Some s
  | i :: rest => s' ← body i s; for_each body rest s'
  end.

(** A loop that rewrites the buffer two bytes at a time, read off pair
    by pair: [g] is what one round does to the pair it visits. *)
Fixpoint map_pairs (g : byte -> byte -> option (byte * byte))
         (raster : list byte) : option (list byte) :=
  match raster with
  | a :: b :: rest =>
      ab ← g a b;
      rest' ← map_pairs g rest;
      Some (fst ab :: snd ab :: rest')
  | _ => Some raster
  end.

End Raster.

(** * Byte-Order Normalizer (hgt2png.cpp, lines 200-209 and 258-267) *)

Module ByteOrder.
Import Raster.

(** The loop body: [swp = raster[i]; raster[i] = raster[i+1];
    raster[i+1] = swp;]. *)
Definition swap_body (i : nat) (raster : list byte) : option (list byte) :=
  swp ← load raster i;
  nxt ← load raster (i + 1);
  Some (store (store raster i nxt) (i + 1) swp).

(** [if (is_little_endian()) { for (...) { ... } }]. *)
Definition normalize (is_little_endian : bool) (data_size : Z)
           (raster : list byte) : option (list byte) :=
  if is_little_endian
  then for_each swap_body (cell_offsets data_size) raster
  else Some raster.

(** What one round does to the pair it visits. *)
Definition swap (a b : byte) : option (byte * byte) := Some (b, a).

End ByteOrder.

(** * Samples: two adjacent bytes read through a 16-bit pointer *)

Module Sample.
Import Raster.

Definition byte_to_Z (b : byte) : Z := Z.of_N (Byte.to_N b).

Definition byte_of_Z (z : Z) : byte :=
  default x00 (Byte.of_N (Z.to_N (z mod 256))).

(** The reserved "no data" value. *)
Definition sentinel : Z := -32768.

(** The 16-bit word that a host of the given byte order sees in the bytes
    [b0] (lower address) and [b1]. *)
Definition word16 (is_little_endian : bool) (b0 b1 : byte) : Z :=
  if is_little_endian
  then byte_to_Z b0 + 256 * byte_to_Z b1
  else 256 * byte_to_Z b0 + byte_to_Z b1.

(** Two's complement reading of a 16-bit word. *)
Definition signed16 (u : Z) : Z := if u <? 32768 then u else u - 65536.

(** The two bytes of a 16-bit word, lower address first. *)
Definition bytes16 (is_little_endian : bool) (u : Z) : byte * byte :=
  if is_little_endian
  then (byte_of_Z u, byte_of_Z (u / 256))
  else (byte_of_Z (u / 256), byte_of_Z u).

(** [*reinterpret_cast<std::int16_t*>(raster.data() + i)]. *)
Definition load_int16 (is_little_endian : bool) (raster : list byte)
           (i : nat) : option Z :=
  b0 ← load raster i;
  b1 ← load raster (i + 1);
  Some (signed16 (word16 is_little_endian b0 b1)).

(** [*reinterpret_cast<std::uint16_t*>(raster.data() + i) = u]. *)
Definition store_uint16 (is_little_endian : bool) (raster : list byte)
           (i : nat) (u : Z) : list byte :=
  let '(b0, b1) := bytes16 is_little_endian u in
  store (store raster i b0) (i + 1) b1.

(** The Grid seen through the buffer: its samples in row-major order. *)
Fixpoint samples (is_little_endian : bool) (raster : list byte) : list Z :=
  match raster with
  | b0 :: b1 :: rest =>
      signed16 (word16 is_little_endian b0 b1) :: samples is_little_endian rest
  | _ => []
  end.

(** The buffer that holds the given unsigned 16-bit values. *)
Fixpoint encode (is_little_endian : bool) (values : list Z) : list byte :=
  match values with
  | [] => []
  | u :: rest =>
      let '(b0, b1) := bytes16 is_little_endian u in
      b0 :: b1 :: encode is_little_endian rest
  end.

End Sample.

(** * Range Scanner (hgt2png.cpp, lines 215-234) *)

Module Scanner.
Import Raster Sample.

(** [int minimum], [int maximum], [int invalid]. *)
Record ElevationRange : Type :=
  { minimum : Z; maximum : Z; invalid : Z }.

(** [int minimum = 32768; int maximum = -32768; int invalid = 0;]. *)
Definition initial : ElevationRange :=
  {| minimum := 32768; maximum := -32768; invalid := 0 |}.

(** The body of the loop once [temp] is read: the maximum is compared
    only in the [else] branch of the minimum test. *)
Definition step (temp : Z) (r : ElevationRange) : ElevationRange :=
  if temp <? minimum r then
    if negb (temp =? -32768)
    then {| minimum := temp; maximum := maximum r; invalid := invalid r |}
    else {| minimum := minimum r; maximum := maximum r;
            invalid := invalid r + 1 |}
  else if temp >? maximum r then
    {| minimum := minimum r; maximum := temp; invalid := invalid r |}
  else r.

Definition scan_body (is_little_endian : bool) (raster : list byte)
           (i : nat) (r : ElevationRange) : option ElevationRange :=
  temp ← load_int16 is_little_endian raster i;
  Some (step temp r).

Definition scan (is_little_endian : bool) (data_size : Z)
           (raster : list byte) : option ElevationRange :=
  for_each (scan_body is_little_endian raster) (cell_offsets data_size)
           initial.

(** The scan as a fold over the samples of the Grid. *)
Definition scan_samples (grid : list Z) : ElevationRange :=
  fold_left (fun r temp => step temp r) grid initial.

(** What the scan keeps true of the samples [seen] so far. *)
Definition scanned (seen : list Z) (r : ElevationRange) : Prop :=
  -32767 <= minimum r <= 32768
  /\ -32768 <= maximum r <= 32767
  /\ forall temp, In temp seen -> temp <> sentinel -> minimum r <= temp.

End Scanner.

(** * Binary64 arithmetic, as the [double] expressions of the source use it *)

Module Double.

Definition prec : Z := 53.
Definition emax : Z := 1024.

(** [static_cast<double>(z)] for an [int] or an [int16_t]: the nearest
    binary64 number, which is [z] itself for every 32-bit integer. *)
Definition of_int (z : Z) : spec_float := binary_normalize prec emax z 0 false.

Definition sub : spec_float -> spec_float -> spec_float := SFsub prec emax.
Definition mul : spec_float -> spec_float -> spec_float := SFmul prec emax.
Definition div : spec_float -> spec_float -> spec_float := SFdiv prec emax.

(** The integer part of a finite number, rounding toward zero; infinities
    and NaN have none. *)
Definition trunc (x : spec_float) : option Z :=
  match x with
  | S754_zero _ => Some 0
  | S754_finite s m e => Some (cond_Zopp s (Z.shiftl (Zpos m) e))
  | S754_infinity _ => None
  | S754_nan => None
  end.

(** [static_cast<std::uint16_t>(x)]: the conversion truncates, and is
    undefined when the truncated value is not a [uint16_t]. *)
Definition to_uint16 (x : spec_float) : option Z :=
  t ← trunc x;
  if (0 <=? t) && (t <=? 65535) then Some t else None.

(** The binary64 number that holds the positive integer [z] below 2^53:
    a mantissa of 53 digits and the exponent that goes with it. *)
Definition finite_of (s : bool) (z : Z) : spec_float :=
  S754_finite s (Z.to_pos (z * 2 ^ (53 - Zdigits2 z))) (Zdigits2 z - 53).

(** The binary64 number that holds the integer [z]. *)
Definition canon (z : Z) : spec_float :=
  match z with
  | 0 => S754_zero false
  | Zpos p => finite_of false (Zpos p)
  | Zneg p => finite_of true (Zpos p)
  end.

(** The second half of [binary_round_aux]: the renormalisation of a
    rounded mantissa. *)
Definition finish (s : bool) (m : Z) (e : Z) : spec_float :=
  let '(mrs, e') := shr_fexp prec emax m e loc_Exact in
  match shr_m mrs with
  | Z0 => S754_zero s
  | Zpos m' =>
      if e' <=? emax - prec then S754_finite s m' e' else S754_infinity s
  | Zneg _ => S754_nan
  end.

(** The literal [3.14159265358979323846]. *)
Definition pi : spec_float := S754_finite false 7074237752028440 (-51).

(** [deg_to_rad]: [deg * 3.14159265358979323846 / 180]. *)
Definition deg_to_rad (deg : spec_float) : spec_float :=
  div (mul deg pi) (of_int 180).

End Double.

(** * Elevation Rescaler (hgt2png.cpp, lines 241-252) *)

Module Rescaler.
Import Raster Sample.

(** The value written through [uvalue] for the sample [svalue]:
    [*svalue == -32768 ? 0xFFFF
       : static_cast<std::uint16_t>((toscale - minf) * 65534.0 / deltaf)]. *)
Definition rescale_sample (minf deltaf : spec_float) (svalue : Z) : option Z :=
  if svalue =? -32768 then Some 65535
  else
    let toscale := Double.of_int svalue in
    Double.to_uint16
      (Double.div (Double.mul (Double.sub toscale minf) (Double.of_int 65534))
                  deltaf).

(** [minf] and [deltaf] of a discovered range. *)
Definition minf_of (minimum : Z) : spec_float := Double.of_int minimum.
Definition deltaf_of (minimum maximum : Z) : spec_float :=
  Double.sub (Double.of_int maximum) (minf_of minimum).

(** The rescaling of one sample under the integers [minimum] and
    [maximum] found by the scanner. *)
Definition rescaled (minimum maximum svalue : Z) : option Z :=
  rescale_sample (minf_of minimum) (deltaf_of minimum maximum) svalue.

(** The same value in integer arithmetic: the quotient truncated toward
    zero, when the range is not empty and the quotient is a [uint16_t]. *)
Definition quotient (minimum maximum svalue : Z) : Z :=
  Z.quot ((svalue - minimum) * 65534) (maximum - minimum).

Definition rescaled_int (minimum maximum svalue : Z) : option Z :=
  if svalue =? -32768 then Some 65535
  else if maximum - minimum =? 0 then None
  else
    let q := quotient minimum maximum svalue in
    if (0 <=? q) && (q <=? 65535) then Some q else None.

Definition rescale_body (is_little_endian : bool) (minf deltaf : spec_float)
           (i : nat) (raster : list byte) : option (list byte) :=
  svalue ← load_int16 is_little_endian raster i;
  uvalue ← rescale_sample minf deltaf svalue;
  Some (store_uint16 is_little_endian raster i uvalue).

(** What one round of the loop does to the two bytes of a sample. *)
Definition rescale_pair (is_little_endian : bool) (minf deltaf : spec_float)
           (a b : byte) : option (byte * byte) :=
  uvalue ← rescale_sample minf deltaf (signed16 (word16 is_little_endian a b));
  Some (bytes16 is_little_endian uvalue).

Definition rescale (is_little_endian : bool) (data_size : Z)
           (minimum maximum : Z) (raster : list byte) : option (list byte) :=
  let minf := minf_of minimum in
  let deltaf := deltaf_of minimum maximum in
  for_each (rescale_body is_little_endian minf deltaf)
           (cell_offsets data_size) raster.

End Rescaler.

(** * Tile Planner (hgt2png.cpp, lines 133-149 and the offset updates of
      lines 282-372) *)

Module TilePlanner.

(** The three diagnostics of the subdivision check, with the arguments
    of their [printf]. *)
Inductive ConfigurationError : Type :=
| BelowOne
    (* "Both row and column must be greater than or equal to 1" *)
| WidthNotDivisible (width cols : Z)
    (* "One less than the width of %d is not evenly divisible by %d" *)
| HeightNotDivisible (height rows : Z).
    (* "One less than the height of %d is not evenly divisible by %d" *)

(** The dimension and the divisor that a diagnostic prints. *)
Definition named (e : ConfigurationError) : option (Z * Z) :=
  match e with
  | BelowOne => None
  | WidthNotDivisible width cols => Some (width, cols)
  | HeightNotDivisible height rows => Some (height, rows)
  end.

(** How the check ends when it does not accept the request: with one of
    the diagnostics, or undefined, [width - 1] or [height - 1] not being
    an [int]. *)
Inductive Refusal : Type :=
| Rejected (e : ConfigurationError)
| Overflow.

(** Lines 133-147; [%] on [int] is the remainder of the truncating
    division, and [width - 1] and [height - 1] are computed, on [int],
    only behind [cols > 1] and [rows > 1]. *)
Definition verify (width height rows cols : Z) : option Refusal :=
  if (cols <? 1) || (rows <? 1) then Some (Rejected BelowOne)
  else if (cols >? 1) && negb (CInt.in_range (width - 1))
  then Some Overflow
  else if (cols >? 1) && negb (Z.rem (width - 1) cols =? 0)
  then Some (Rejected (WidthNotDivisible width cols))
  else if (rows >? 1) && negb (CInt.in_range (height - 1))
  then Some Overflow
  else if (rows >? 1) && negb (Z.rem (height - 1) rows =? 0)
  then Some (Rejected (HeightNotDivisible height rows))
  else None.

(** [(width / cols) + (cols > 1 ? 1 : 0)]. *)
Definition subwidth (width cols : Z) : Z :=
  Z.quot width cols + (if cols >? 1 then 1 else 0).

(** [(height / rows) + (rows > 1 ? 1 : 0)]. *)
Definition subheight (height rows : Z) : Z :=
  Z.quot height rows + (if rows >? 1 then 1 else 0).

(** The two offsets that the tile loops carry. *)
Record Offsets : Type := { row_offset : Z; col_offset : Z }.

(** [int row_offset = 0; int col_offset = 0;]. *)
Definition origin : Offsets := {| row_offset := 0; col_offset := 0 |}.

(** End of the inner loop body, line 368:
    [col_offset += (subheight - 1);]. *)
Definition next_col (subheight : Z) (o : Offsets) : Offsets :=
  {| row_offset := row_offset o;
     col_offset := col_offset o + (subheight - 1) |}.

(** End of the outer loop body, lines 370-371:
    [col_offset = 0; row_offset += (subwidth - 1);]. *)
Definition next_row (subwidth : Z) (o : Offsets) : Offsets :=
  {| row_offset := row_offset o + (subwidth - 1); col_offset := 0 |}.

(** A [for] loop of [n] rounds whose body may leave the program. *)
Fixpoint iterate {S E : Type} (n : nat) (body : S -> E + S) (s : S) : E + S :=
  match n with
  | O => inr s
  | Datatypes.S n' =>
      match body s with
      | inl e => inl e
      | inr s' => iterate n' body s'
      end
  end.

(** The two nested loops of lines 284-372 around a tile body [tile],
    which works on the program state [S] and may leave the program. *)
Section Loops.
Context {S E : Type}.
Variable tile : Offsets -> S -> E + S.
Variables cols subwidth subheight : Z.

Definition col_round (st : Offsets * S) : E + (Offsets * S) :=
  match tile (fst st) (snd st) with
  | inl e => inl e
  | inr s' => inr (next_col subheight (fst st), s')
  end.

Definition row_round (st : Offsets * S) : E + (Offsets * S) :=
  match iterate (Z.to_nat cols) col_round st with
  | inl e => inl e
  | inr st' => inr (next_row subwidth (fst st'), snd st')
  end.

Definition tile_loops (rows : Z) (s : S) : E + (Offsets * S) :=
  iterate (Z.to_nat rows) row_round (origin, s).
End Loops.

(** The tile body that only records the offsets it is given. *)
Definition record (o : Offsets) (acc : list Offsets) : unit + list Offsets :=
  inr (acc ++ [o]).

(** The offsets of the tiles in the order in which the loops reach them. *)
Definition plan (width height rows cols : Z) : list Offsets :=
  match tile_loops record
                   cols (subwidth width cols) (subheight height rows)
                   rows [] with
  | inl _ => []
  | inr st => snd st
  end.

(** The offsets as the specification describes them: row-major, the
    column offset advancing by [subwidth - 1] and the row offset by
    [subheight - 1]. *)
Definition spec_plan (width height rows cols : Z) : list Offsets :=
  flat_map
    (fun r =>
       map (fun c =>
              {| row_offset := Z.of_nat r * (subheight height rows - 1);
                 col_offset := Z.of_nat c * (subwidth width cols - 1) |})
           (seq 0 (Z.to_nat cols)))
    (seq 0 (Z.to_nat rows)).

End TilePlanner.

(** * Raster Emitter (hgt2png.cpp, lines 272-372) *)

Module Emitter.
Import TilePlanner.

(** Conversion of an [int] to [std::size_t] (64 bits, unsigned). *)
Definition to_size_t (z : Z) : Z := z mod 2 ^ 64.

(** The signed displacement that an unsigned 64-bit offset adds to a
    pointer. *)
Definition displacement (u : Z) : Z := if u <? 2 ^ 63 then u else u - 2 ^ 64.

(** The byte index, counted from [raster.data()], of
    [raster.data() + row_abs * width * sizeof(std::uint16_t)
                   + (col_offset - 1) * sizeof(std::uint16_t)]:
    [row_abs * width] and [col_offset - 1] are computed on [int] and then
    converted to [std::size_t]. *)
Definition row_pointer (width row_abs col_offset : Z) : option Z :=
  product ← CInt.mul row_abs width;
  before ← CInt.sub col_offset 1;
  Some (displacement
          (to_size_t (to_size_t (to_size_t product * 2)
                      + to_size_t (to_size_t before * 2)))).

(** Lines 325-331: the entries of [png_rows] for one tile, [row_abs]
    running from [row_offset] up to the [int] [row_offset + subheight]. *)
Definition png_rows (width subheight : Z) (o : Offsets) : option (list Z) :=
  _ ← CInt.add (row_offset o) subheight;
  mapM (fun k => row_pointer width (row_offset o + Z.of_nat k) (col_offset o))
       (seq 0 (Z.to_nat subheight)).

(** The byte index of pixel [(r, c)] of a tile, as the encoder reaches it
    through the row pointers; [None] outside the tile's rows, and when
    the row pointers are undefined. *)
Definition pixel_byte (width subheight : Z) (o : Offsets) (r c : nat)
  : option Z :=
  pointers ← png_rows width subheight o;
  p ← pointers !! r;
  Some (p + 2 * Z.of_nat c).

(** The byte index of the Grid sample in row [row] and column [col]. *)
Definition grid_byte (width row col : Z) : Z := 2 * (row * width + col).

(** A row of [subwidth] pixels that starts at byte [p] lies inside a
    buffer of [data_size] bytes. *)
Definition row_in_bounds (data_size subwidth p : Z) : bool :=
  (0 <=? p) && (p + subwidth * 2 <=? data_size).

(** What the encoder is handed for one tile. *)
Record PngImage : Type :=
  { ihdr_width : Z;            (* png_set_IHDR: subwidth *)
    ihdr_height : Z;           (* png_set_IHDR: subheight *)
    ihdr_bit_depth : Z;        (* sizeof(std::uint16_t) * 8 *)
    scal_unit : Z;             (* png_set_sCAL: 2 *)
    scal_width : spec_float;   (* upx *)
    scal_height : spec_float;  (* upy *)
    pcal_p0 : spec_float;      (* minf *)
    pcal_p1 : spec_float;      (* deltaf *)
    rows : list Z }.           (* png_set_rows *)

(** [deg_to_rad(1.0 / static_cast<double>(subdimension - 1))]. *)
Definition pixel_angle (subdimension : Z) : spec_float :=
  Double.deg_to_rad
    (Double.div (Double.of_int 1) (Double.of_int (subdimension - 1))).

(** Lines 291-331: the image of one tile; undefined when its row
    pointers are. *)
Definition image (width subwidth subheight : Z) (minf deltaf : spec_float)
           (o : Offsets) : option PngImage :=
  pointers ← png_rows width subheight o;
  Some {| ihdr_width := subwidth;
          ihdr_height := subheight;
          ihdr_bit_depth := 16;
          scal_unit := 2;
          scal_width := pixel_angle subwidth;
          scal_height := pixel_angle subheight;
          pcal_p0 := minf;
          pcal_p1 := deltaf;
          rows := pointers |}.

(** [std::to_string] of an [int]. *)
Definition to_string (z : Z) : string := NilZero.string_of_int (Z.to_int z).

(** [base_name + "." + std::to_string(row_offset) + "."
     + std::to_string(col_offset) + ".png"]. *)
Definition subname (base_name : string) (o : Offsets) : string :=
  String.append base_name
    (String.append "."
       (String.append (to_string (row_offset o))
          (String.append "."
             (String.append (to_string (col_offset o)) ".png")))).

End Emitter.

(** * The C library routines that [main] calls on its arguments *)

Module CLib.

Definition isspace (c : ascii) : bool :=
  let n := nat_of_ascii c in
  Nat.eqb n 32 || (Nat.leb 9 n && Nat.leb n 13).

Definition digit (c : ascii) : option Z :=
  let n := Z.of_nat (nat_of_ascii c) in
  if (48 <=? n) && (n <=? 57) then Some (n - 48) else None.

Fixpoint skip_space (s : list ascii) : list ascii :=
  match s with
  | c :: rest => if isspace c then skip_space rest else s
  | [] => []
  end.

(** Further decimal digits, at most [width] of them, after the value
    [acc] read so far. *)
Fixpoint more_digits (width : nat) (acc : Z) (s : list ascii)
  : Z * list ascii :=
  match width, s with
  | Datatypes.S w, c :: rest =>
      match digit c with
      | Some d => more_digits w (acc * 10 + d) rest
      | None => (acc, s)
      end
  | _, _ => (acc, s)
  end.

(** A run of one to [width] decimal digits. *)
Definition scan_unsigned (width : nat) (s : list ascii)
  : option (Z * list ascii) :=
  match width, s with
  | Datatypes.S w, c :: rest =>
      match digit c with
      | Some d => Some (more_digits w d rest)
      | None => None
      end
  | _, _ => None
  end.

(** The conversion [%<width>d] of [sscanf]: white space is skipped, a
    sign counts in the field width, and at least one digit must follow. *)
Definition scan_int (width : nat) (s : list ascii) : option (Z * list ascii) :=
  match skip_space s with
  | c :: rest =>
      if Ascii.eqb c "-" then
        match scan_unsigned (Nat.pred width) rest with
        | Some (v, rest') => Some (- v, rest')
        | None => None
        end
      else if Ascii.eqb c "+" then scan_unsigned (Nat.pred width) rest
      else scan_unsigned width (c :: rest)
  | [] => None
  end.

(** The number that the text of [s] denotes for [std::atoi]: 0 when no
    digits can be read. *)
Definition decimal (s : string) : Z :=
  match skip_space (list_ascii_of_string s) with
  | c :: rest =>
      if Ascii.eqb c "-" then - fst (more_digits (length rest) 0 rest)
      else if Ascii.eqb c "+" then fst (more_digits (length rest) 0 rest)
      else fst (more_digits (Datatypes.S (length rest)) 0 (c :: rest))
  | [] => 0
  end.

(** [std::atoi]: the result is an [int], and the call is undefined when
    the number is not one. *)
Definition atoi (s : string) : option Z := CInt.checked (decimal s).

(** The text behind the last occurrence of [c], as [std::strrchr] finds
    it; [None] when [c] does not occur. *)
Fixpoint after_last (c : ascii) (s : list ascii) : option (list ascii) :=
  match s with
  | [] => None
  | x :: rest =>
      match after_last c rest with
      | Some tail => Some tail
      | None => if Ascii.eqb x c then Some rest else None
      end
  end.

(** The text before the last occurrence of [c]; [None] when [c] does not
    occur ([find_last_of] returns [npos]). *)
Fixpoint before_last (c : ascii) (s : list ascii) : option (list ascii) :=
  match s with
  | [] => None
  | x :: rest =>
      match before_last c rest with
      | Some head => Some (x :: head)
      | None => if Ascii.eqb x c then Some [] else None
      end
  end.

End CLib.

(** * The location in the file name (hgt2png.cpp, lines 164-183) *)

Module FileName.
Import CLib.

(** [char hemi[2]] and [int ll[2]]. *)
Record Location : Type :=
  { hemi0 : ascii; hemi1 : ascii; ll0 : Z; ll1 : Z }.

(** [int ll[2] = { -1, -1 }; char hemi[2] = { 0, 0 };]. *)
Definition unset : Location :=
  {| hemi0 := zero; hemi1 := zero; ll0 := -1; ll1 := -1 |}.

(** [last_slash ? last_slash + 1 : argv[1]], with ['/'] the delimiter. *)
Definition file_name (path : string) : list ascii :=
  match after_last "/" (list_ascii_of_string path) with
  | Some name => name
  | None => list_ascii_of_string path
  end.

(** [std::sscanf(file_name, "%c%2d%c%3d.hgt", &hemi[0], &ll[0],
    &hemi[1], &ll[1])]: the conversions are made in turn and the first
    one that fails ends the call, leaving the later variables as they
    were. *)
Definition sscanf (file_name : list ascii) : Location :=
  match file_name with
  | [] => unset
  | h0 :: after_h0 =>
      match scan_int 2 after_h0 with
      | None => {| hemi0 := h0; hemi1 := zero; ll0 := -1; ll1 := -1 |}
      | Some (l0, after_l0) =>
          match after_l0 with
          | [] => {| hemi0 := h0; hemi1 := zero; ll0 := l0; ll1 := -1 |}
          | h1 :: after_h1 =>
              match scan_int 3 after_h1 with
              | None => {| hemi0 := h0; hemi1 := h1; ll0 := l0; ll1 := -1 |}
              | Some (l1, _) =>
                  {| hemi0 := h0; hemi1 := h1; ll0 := l0; ll1 := l1 |}
              end
          end
      end
  end.

(** [valid_hemi[0]] and [valid_hemi[1]]. *)
Definition valid_hemi0 (l : Location) : bool :=
  Ascii.eqb (hemi0 l) "N" || Ascii.eqb (hemi0 l) "S".
Definition valid_hemi1 (l : Location) : bool :=
  Ascii.eqb (hemi1 l) "W" || Ascii.eqb (hemi1 l) "E".

(** [base_name.erase(base_name.find_last_of("."), std::string::npos)]:
    without a dot [erase] throws [std::out_of_range]. *)
Definition base_name (file_name : list ascii) : option string :=
  option_map string_of_list_ascii (before_last "." file_name).

End FileName.

(** * The program (hgt2png.cpp, [main]) *)

Module Main.
Import Raster Sample Scanner TilePlanner Emitter.

(** What a run meets outside the program: its arguments, the source file
    (its bytes, or [None] when [fopen] fails), the byte order of the
    host, whether [fopen] gives a stream for the PNG of a given name, and
    whether [fwrite] then writes that PNG in full. *)
Record Environment : Type :=
  { argv : list string;
    hgt_file : option (list byte);
    is_little_endian : bool;
    fopen_ok : string -> bool;
    write_ok : string -> bool }.

(** The lines printed on standard output, with the arguments of their
    [printf]. *)
Inductive Diagnostic : Type :=
| Usage
| CouldNotOpen (name : string)
| FileInfo (name : string) (hgt_size width height pixel_count : Z)
| Configuration (e : ConfigurationError)
| SizeMismatch (actual expected : Z)
| InvalidHemisphere (c : ascii) (file_name : string)
| Bounds (ll0 : Z) (hemi0 : ascii) (ll1 : Z) (hemi1 : ascii)
| ReadSize (read_size : Z)
| Range (minimum maximum invalid : Z)
| WriteSize (write_size : Z)
| Compression.

(** How a run ends: [return code;], an exception that nothing catches,
    or behaviour that the language leaves undefined. *)
Inductive Status : Type :=
| Exit (code : Z)
| Terminate
| Undefined.

Record Outcome : Type :=
  { status : Status;
    stdout : list Diagnostic;
    buffer : list byte;                  (* [raster] when the run ends *)
    files : list (string * PngImage) }.  (* the PNG files written *)

Definition stop (s : Status) (out : list Diagnostic) : Outcome :=
  {| status := s; stdout := out; buffer := []; files := [] |}.

(** Conversion of a [std::size_t] value to [std::int64_t]. *)
Definition to_int64 (u : Z) : Z := if u <? 2 ^ 63 then u else u - 2 ^ 64.

(** How the body of the tile loops leaves the program: by behaviour that
    the language leaves undefined, or by [return 1] behind a [write_size]
    other than 1. *)
Inductive Failure : Type :=
| Crash
| ShortWrite.

(** The body of the tile loops, lines 291-367, on the list of files
    written so far.  The test behind [fopen] (line 350) looks at
    [hgt_file], which is open, and not at [png_file]: when [fopen] has
    given no stream, [fwrite] is called on a null stream, which is
    undefined. *)
Definition write_tile (env : Environment) (base_name : string)
           (width subwidth subheight : Z) (minf deltaf : spec_float)
           (o : Offsets) (written : list (string * PngImage))
  : (Failure * list (string * PngImage)) + list (string * PngImage) :=
  match image width subwidth subheight minf deltaf o with
  | None => inl (Crash, written)
  | Some png =>
      let name := subname base_name o in
      if negb (fopen_ok env name) then inl (Crash, written)
      else if write_ok env name then inr (written ++ [(name, png)])
      else inl (ShortWrite, written)
  end.

(** Lines 185-381, once the arguments and the file name are accepted.
    The counter [i] of the loops over the buffer is an [int]: on a buffer
    of more than [INT_MAX] bytes it comes back negative from
    [i += sizeof(std::int16_t)] and the first loop that runs indexes the
    buffer outside its bounds. *)
Definition convert (env : Environment) (out : list Diagnostic)
           (base_name : string) (width rows cols subwidth subheight : Z)
           (data_size : Z) (contents : list byte) : Outcome :=
  if data_size =? 0 then stop (Exit 1) (out ++ [ReadSize 0])
  else if CInt.max <? data_size then stop Undefined out
  else
    let le := is_little_endian env in
    match ByteOrder.normalize le data_size contents with
    | None => stop Undefined out
    | Some native =>
        match scan le data_size native with
        | None => stop Undefined out
        | Some range =>
            let out := out ++ [Range (minimum range) (maximum range)
                                     (invalid range)] in
            let minf := Rescaler.minf_of (minimum range) in
            let deltaf := Rescaler.deltaf_of (minimum range) (maximum range) in
            match Rescaler.rescale le data_size (minimum range)
                                   (maximum range) native with
            | None => stop Undefined out
            | Some scaled =>
                match ByteOrder.normalize le data_size scaled with
                | None => stop Undefined out
                | Some raster =>
                    if subheight <? 0 then
                      {| status := Terminate; stdout := out;
                         buffer := raster; files := [] |}
                    else
                      match tile_loops
                              (write_tile env base_name width subwidth
                                          subheight minf deltaf)
                              cols subwidth subheight rows [] with
                      | inl (Crash, written) =>
                          {| status := Undefined; stdout := out;
                             buffer := raster; files := written |}
                      | inl (ShortWrite, written) =>
                          {| status := Exit 1;
                             stdout := out ++ [WriteSize 0];
                             buffer := raster; files := written |}
                      | inr st =>
                          {| status := Exit 0;
                             stdout := out ++ [Compression];
                             buffer := raster; files := snd st |}
                      end
                end
            end
        end
    end.

(** Lines 118-183, once the source file is open: the checks of the
    subdivision, of the file size and of the file name, on the variables
    [width], [height], [rows], [cols] and [pixel_count] of lines
    100-104. *)
Definition process (env : Environment) (source : string)
           (contents : list byte) (width height rows cols pixel_count : Z)
  : Outcome :=
  let hgt_size := Z.of_nat (length contents) in
  let out := [FileInfo source hgt_size width height pixel_count] in
  match verify width height rows cols with
  | Some Overflow => stop Undefined out
  | Some (Rejected e) => stop (Exit 1) (out ++ [Configuration e])
  | None =>
      let subwidth := subwidth width cols in
      let subheight := subheight height rows in
      let data_size := to_int64 (to_size_t (pixel_count * 2)) in
      if negb (hgt_size =? data_size)
      then stop (Exit 1) (out ++ [SizeMismatch hgt_size data_size])
      else
        let file_name := FileName.file_name source in
        let loc := FileName.sscanf file_name in
        match FileName.base_name file_name with
        | None => stop Terminate out
        | Some base_name =>
            let valid0 := FileName.valid_hemi0 loc in
            let valid1 := FileName.valid_hemi1 loc in
            if negb valid0 || negb valid1 then
              stop (Exit 1)
                   (out ++ [InvalidHemisphere
                              (if valid0 then FileName.hemi1 loc
                               else FileName.hemi0 loc)
                              (string_of_list_ascii file_name)])
            else
              convert env
                (out ++ [Bounds (FileName.ll0 loc) (FileName.hemi0 loc)
                                (FileName.ll1 loc) (FileName.hemi1 loc)])
                base_name width rows cols subwidth subheight
                data_size contents
        end
  end.

(** [argc < 4 || argc == 5]. *)
Definition usage (argv : list string) : bool :=
  let argc := Z.of_nat (length argv) in
  (argc <? 4) || (argc =? 5).

(** Lines 100-103: [width], [height], [rows] and [cols], each the result
    of an [atoi] or the default 1; undefined when an [atoi] is. *)
Definition dimensions (argv : list string) : option (Z * Z * Z * Z) :=
  let argc := Z.of_nat (length argv) in
  let arg := fun k => nth k argv EmptyString in
  width ← CLib.atoi (arg 2%nat);
  height ← CLib.atoi (arg 3%nat);
  rows ← (if argc >=? 5 then CLib.atoi (arg 4%nat) else Some 1);
  cols ← (if argc >=? 5 then CLib.atoi (arg 5%nat) else Some 1);
  Some (width, height, rows, cols).

(** Lines 72-116: the arguments, [pixel_count], whose product
    [width * height] is computed on [int] (line 104), and the opening of
    the source file. *)
Definition main (env : Environment) : Outcome :=
  let source := nth 1 (argv env) EmptyString in
  if usage (argv env) then stop (Exit 0) [Usage]
  else
    match dimensions (argv env) with
    | None => stop Undefined []
    | Some (width, height, rows, cols) =>
        match CInt.mul width height with
        | None => stop Undefined []
        | Some product =>
            let pixel_count := to_size_t product in
            match hgt_file env with
            | None => stop (Exit 1) [CouldNotOpen source]
            | Some contents =>
                process env source contents width height rows cols
                        pixel_count
            end
        end
    end.

End Main.

(** * The statements of the specification that the program is compared with *)

Module Spec.
Import Sample Scanner.

(** [round(n / d)] for [n >= 0] and [d > 0], halves rounded up. *)
Definition round_div (n d : Z) : Z := (2 * n + d) / (2 * d).

(** "Non-sentinel RawSamples map via
    [round((raw - minimum) * 65534 / (maximum - minimum))]". *)
Definition rescaled (minimum maximum raw : Z) : Z :=
  round_div ((raw - minimum) * 65534) (maximum - minimum).

(** The rescaling as the specification states it for one grid: the
    sentinel goes to [0xFFFF], and under a range with
    [maximum - minimum > 0] every other sample goes to the rounded
    quotient, a value in [[0, 65534]]. *)
Definition rescales_by_rounding (grid : list Z) : Prop :=
  let range := scan_samples grid in
  forall raw, In raw grid ->
    (raw = sentinel ->
     Rescaler.rescaled (minimum range) (maximum range) raw = Some 65535)
    /\ (raw <> sentinel -> maximum range - minimum range > 0 ->
        Rescaler.rescaled (minimum range) (maximum range) raw
        = Some (rescaled (minimum range) (maximum range) raw)
        /\ 0 <= rescaled (minimum range) (maximum range) raw <= 65534).

(** "RescaledSample is non-decreasing in RawSample" at two raw samples
    under one range. *)
Definition non_decreasing_at (minimum maximum raw1 raw2 : Z) : Prop :=
  raw1 <= raw2 ->
  exists v1 v2,
    Rescaler.rescaled minimum maximum raw1 = Some v1
    /\ Rescaler.rescaled minimum maximum raw2 = Some v2
    /\ v1 <= v2.

(** "Rejects ... with a ConfigurationError naming the failing dimension
    and divisor, before any output file is created". *)
Definition rejects_naming (o : Main.Outcome) : Prop :=
  Main.status o = Main.Exit 1
  /\ Main.files o = []
  /\ exists e dimension divisor,
       In (Main.Configuration e) (Main.stdout o)
       /\ TilePlanner.named e = Some (dimension, divisor).

(** "Non-fatal, degrades to a placeholder": the run goes on to print the
    bounds of the raster. *)
Definition continues_to_bounds (o : Main.Outcome) : Prop :=
  exists ll0 hemi0 ll1 hemi1,
    In (Main.Bounds ll0 hemi0 ll1 hemi1) (Main.stdout o).

End Spec.

(** * Further notions used to describe the program *)

Module Describe.
Import Sample Scanner TilePlanner Emitter.


(** The value that the rescaler writes for a sample when nothing is
    undefined. *)
Definition value (minimum maximum raw : Z) : Z :=
  if raw =? -32768 then 65535 else Rescaler.quotient minimum maximum raw.


(** The offsets that the tile loops visit for given tile dimensions. *)
Definition visited (rows cols subwidth subheight : Z) : list Offsets :=
  match tile_loops record cols subwidth subheight rows [] with
  | inl _ => []
  | inr st => snd st
  end.

(** The file that the run writes for the tile at the offsets [o], when
    the image of that tile is defined. *)
Definition tile_file (base_name : string) (width subwidth subheight : Z)
           (minf deltaf : spec_float) (o : Offsets)
  : option (string * PngImage) :=
  png ← image width subwidth subheight minf deltaf o;
  Some (subname base_name o, png).

(** [argv[1]]. *)
Definition source (env : Main.Environment) : string :=
  nth 1 (Main.argv env) EmptyString.

(** A run that gets past lines 72-116: the arguments are read as the
    [int]s [width], [height], [rows] and [cols], the product
    [width * height] is the [int] [product], and the source file is open
    and holds the bytes [contents]. *)
Definition started (env : Main.Environment) (contents : list byte)
           (width height rows cols product : Z) : Prop :=
  Main.usage (Main.argv env) = false
  /\ Main.dimensions (Main.argv env) = Some (width, height, rows, cols)
  /\ CInt.mul width height = Some product
  /\ Main.hgt_file env = Some contents.

(** The line that such a run prints first. *)
Definition file_info (env : Main.Environment) (contents : list byte)
           (width height product : Z) : Main.Diagnostic :=
  Main.FileInfo (source env) (Z.of_nat (length contents)) width height
                (Emitter.to_size_t product).

(** The same run on a host of the other byte order. *)
Definition on_host (is_little_endian : bool) (env : Main.Environment)
  : Main.Environment :=
  {| Main.argv := Main.argv env;
     Main.hgt_file := Main.hgt_file env;
     Main.is_little_endian := is_little_endian;
     Main.fopen_ok := Main.fopen_ok env;
     Main.write_ok := Main.write_ok env |}.

(** A tile body called on a list of offsets in turn, up to the first call
    that leaves the program. *)
Fixpoint run_tiles {S E : Type} (tile : Offsets -> S -> E + S)
         (os : list Offsets) (s : S) : E + S :=
  match os with
  | [] => inr s
  | o :: rest =>
      match tile o s with
      | inl e => inl e
      | inr s' => run_tiles tile rest s'
      end
  end.

(** The offsets of the tiles by row and column index: what the loops take
    for tile [(r, c)]. *)
Definition offsets_at (subwidth subheight : Z) (r c : nat) : Offsets :=
  {| row_offset := Z.of_nat r * (subwidth - 1);
     col_offset := Z.of_nat c * (subheight - 1) |}.

(** The run of lines 185-381 told without the byte order of the host:
    the grid is the big-endian reading of the file, and the buffer that
    the images point into is the big-endian buffer of the rescaled
    values. *)
Definition converted (env : Main.Environment) (out : list Main.Diagnostic)
           (base_name : string) (width rows cols subwidth subheight : Z)
           (contents : list byte) : Main.Outcome :=
  if Z.of_nat (length contents) =? 0
  then Main.stop (Main.Exit 1) (out ++ [Main.ReadSize 0])
  else if CInt.max <? Z.of_nat (length contents)
  then Main.stop Main.Undefined out
  else
    let grid := samples false contents in
    let range := scan_samples grid in
    let out := out ++ [Main.Range (minimum range) (maximum range)
                                  (invalid range)] in
    let minf := Rescaler.minf_of (minimum range) in
    let deltaf := Rescaler.deltaf_of (minimum range) (maximum range) in
    match mapM (Rescaler.rescaled (minimum range) (maximum range)) grid with
    | None => Main.stop Main.Undefined out
    | Some values =>
        if subheight <? 0 then
          {| Main.status := Main.Terminate; Main.stdout := out;
             Main.buffer := encode false values; Main.files := [] |}
        else
          match run_tiles (Main.write_tile env base_name width subwidth
                                           subheight minf deltaf)
                          (visited rows cols subwidth subheight) [] with
          | inl (Main.Crash, written) =>
              {| Main.status := Main.Undefined;
                 Main.stdout := out;
                 Main.buffer := encode false values;
                 Main.files := written |}
          | inl (Main.ShortWrite, written) =>
              {| Main.status := Main.Exit 1;
                 Main.stdout := out ++ [Main.WriteSize 0];
                 Main.buffer := encode false values;
                 Main.files := written |}
          | inr written =>
              {| Main.status := Main.Exit 0;
                 Main.stdout := out ++ [Main.Compression];
                 Main.buffer := encode false values;
                 Main.files := written |}
          end
    end.

End Describe.

(** * The earlier version of the program (hgt2png.cpp, second [main]):
      one PNG for the whole grid *)

Module Legacy.
Import Raster Sample Scanner Emitter.

(** [rows[r] = raster.data() + r * width * sizeof(std::uint16_t)], as a
    byte index from [raster.data()]; [r * width] is computed on [int]. *)
Definition row_pointer (width r : Z) : option Z :=
  product ← CInt.mul r width;
  Some (displacement (to_size_t (to_size_t product * 2))).

(** [for (auto r = 0; r < height; r++) rows[r] = ...]. *)
Definition png_rows (width height : Z) : option (list Z) :=
  mapM (fun r => row_pointer width (Z.of_nat r)) (seq 0 (Z.to_nat height)).

(** The byte index of pixel [(r, c)] as the encoder reaches it. *)
Definition pixel_byte (width height : Z) (r c : nat) : option Z :=
  pointers ← png_rows width height;
  p ← pointers !! r;
  Some (p + 2 * Z.of_nat c).

End Legacy.

(** * Lists of results that may be undefined *)

Section OptionLists.

Lemma mapM_total {A B : Type} (f : A -> option B) (g : A -> B) (l : list A) :
  (forall x, In x l -> f x = Some (g x)) -> mapM f l = Some (map g l).
Proof.
  induction l as [|x l IH]; intros Hf; cbn [mapM map].
  - reflexivity.
  - rewrite (Hf x (or_introl eq_refl)). cbn [mbind option_bind].
    rewrite IH by (intros y Hy; apply Hf; right; exact Hy). reflexivity.
Qed.

Lemma mapM_option_length {A B : Type} (f : A -> option B) (l : list A) :
  forall k, mapM f l = Some k -> length k = length l.
Proof.
  induction l as [|x l IH]; intros k; cbn [mapM].
  - intros [= <-]. reflexivity.
  - destruct (f x) as [y|]; [|discriminate]. cbn [mbind option_bind].
    destruct (mapM f l) as [k'|]; [|discriminate].
    cbn [mbind option_bind mret option_ret]. intros [= <-].
    cbn [length]. f_equal. apply IH. reflexivity.
Qed.

End OptionLists.

(** * Loops over the buffer *)

Section BufferLoops.
Import Raster.

Lemma cell_offsets_even (n : nat) :
  cell_offsets (Z.of_nat (2 * n)) = map (fun k => (2 * k)%nat) (seq 0 n).
Proof.
  unfold cell_offsets. f_equal. f_equal.
  replace ((Z.of_nat (2 * n) + 1) / 2) with (Z.of_nat n).
  - apply Nat2Z.id.
  - apply Z.div_unique with (r := 1); lia.
Qed.

(** Induction over a buffer two bytes at a time. *)
Lemma list_pair_ind (P : list byte -> Prop) :
  P [] -> (forall a, P [a]) ->
  (forall a b rest, P rest -> P (a :: b :: rest)) ->
  forall raster, P raster.
Proof.
  intros Hnil Hone Hstep raster.
  assert (H : P raster /\ forall a, P (a :: raster)).
  { induction raster as [|b rest [IH1 IH2]].
    - split; [exact Hnil | exact Hone].
    - split; [apply IH2 | intros a; apply Hstep, IH1]. }
  exact (proj1 H).
Qed.

Lemma load_pair (front : list byte) (a b : byte) (rest : list byte) :
  load (front ++ a :: b :: rest) (length front) = Some a
  /\ load (front ++ a :: b :: rest) (length front + 1) = Some b.
Proof.
  unfold load. split.
  - apply list_lookup_middle. reflexivity.
  - rewrite lookup_app_r by lia.
    replace (length front + 1 - length front)%nat with 1%nat by lia.
    reflexivity.
Qed.

Lemma store_pair (front : list byte) (a b a' b' : byte) (rest : list byte) :
  store (store (front ++ a :: b :: rest) (length front) a')
        (length front + 1) b'
  = front ++ a' :: b' :: rest.
Proof.
  unfold store.
  rewrite (insert_app_r_alt front _ (length front)) by lia.
  rewrite Nat.sub_diag. cbn [insert list_insert].
  rewrite insert_app_r. reflexivity.
Qed.

(** A loop whose round at offset [2k] rewrites the pair behind a prefix
    of [2k] bytes, and nothing else, is [map_pairs]. *)
Section InPlace.
Variable g : byte -> byte -> option (byte * byte).
Variable body : nat -> list byte -> option (list byte).
Hypothesis body_pair :
  forall front a b rest,
    body (length front) (front ++ a :: b :: rest)
    = (ab ← g a b; Some (front ++ fst ab :: snd ab :: rest)).

Lemma for_each_pairs_from (n : nat) :
  forall (k : nat) (front todo : list byte),
    length front = (2 * k)%nat ->
    length todo = (2 * n)%nat ->
    for_each body (map (fun j => (2 * j)%nat) (seq k n)) (front ++ todo)
    = (todo' ← map_pairs g todo; Some (front ++ todo')).
Proof.
  induction n as [|n IH]; intros k front todo Hfront Htodo.
  - destruct todo; [reflexivity | discriminate].
  - destruct todo as [|a [|b rest]]; simpl in Htodo; try lia.
    cbn [seq map for_each map_pairs].
    rewrite <- Hfront, body_pair.
    destruct (g a b) as [[a' b']|]; [|reflexivity].
    cbn [mbind option_bind fst snd].
    replace (front ++ a' :: b' :: rest) with ((front ++ [a'; b']) ++ rest)
      by (rewrite <- app_assoc; reflexivity).
    rewrite (IH (S k) (front ++ [a'; b']) rest).
    + destruct (map_pairs g rest) as [rest'|]; [|reflexivity].
      cbn [mbind option_bind]. rewrite <- app_assoc. reflexivity.
    + rewrite length_app. simpl. lia.
    + lia.
Qed.

Lemma for_each_pairs (raster : list byte) (n : nat) :
  length raster = (2 * n)%nat ->
  for_each body (cell_offsets (Z.of_nat (length raster))) raster
  = map_pairs g raster.
Proof.
  intros Hlen. rewrite Hlen, cell_offsets_even.
  pose proof (for_each_pairs_from n 0 [] raster eq_refl Hlen) as H.
  cbn [app] in H. rewrite H.
  destruct (map_pairs g raster); reflexivity.
Qed.
End InPlace.

(** A loop that only reads the buffer, one sample a round, is a fold
    over the samples. *)
Section ReadOnly.
Import Sample.
Context {State : Type}.
Variable is_little_endian : bool.
Variable f : Z -> State -> State.

Lemma load_int16_pair (front : list byte) (a b : byte) (rest : list byte) :
  load_int16 is_little_endian (front ++ a :: b :: rest) (length front)
  = Some (signed16 (word16 is_little_endian a b)).
Proof.
  unfold load_int16. destruct (load_pair front a b rest) as [-> ->].
  reflexivity.
Qed.

Lemma for_each_samples_from (n : nat) :
  forall (k : nat) (front todo : list byte) (s : State),
    length front = (2 * k)%nat ->
    length todo = (2 * n)%nat ->
    for_each (fun i s => temp ← load_int16 is_little_endian (front ++ todo) i;
                         Some (f temp s))
             (map (fun j => (2 * j)%nat) (seq k n)) s
    = Some (fold_left (fun s temp => f temp s)
                      (samples is_little_endian todo) s).
Proof.
  induction n as [|n IH]; intros k front todo s Hfront Htodo.
  - destruct todo; [reflexivity | discriminate].
  - destruct todo as [|a [|b rest]]; simpl in Htodo; try lia.
    cbn [seq map for_each samples fold_left].
    rewrite <- Hfront, load_int16_pair.
    cbn [mbind option_bind].
    replace (front ++ a :: b :: rest) with ((front ++ [a; b]) ++ rest)
      by (rewrite <- app_assoc; reflexivity).
    apply (IH (S k) (front ++ [a; b]) rest).
    + rewrite length_app. simpl. lia.
    + lia.
Qed.

Lemma for_each_samples (raster : list byte) (n : nat) (s : State) :
  length raster = (2 * n)%nat ->
  for_each (fun i s => temp ← load_int16 is_little_endian raster i;
                       Some (f temp s))
           (cell_offsets (Z.of_nat (length raster))) s
  = Some (fold_left (fun s temp => f temp s)
                    (samples is_little_endian raster) s).
Proof.
  intros Hlen. rewrite Hlen, cell_offsets_even.
  apply (for_each_samples_from n 0 [] raster s eq_refl Hlen).
Qed.
End ReadOnly.

End BufferLoops.

(** * The byte-order normalizer *)

Section ByteOrderFacts.
Import Raster ByteOrder.

Lemma swap_body_pair (front : list byte) (a b : byte) (rest : list byte) :
  swap_body (length front) (front ++ a :: b :: rest)
  = (ab ← swap a b; Some (front ++ fst ab :: snd ab :: rest)).
Proof.
  unfold swap_body. destruct (load_pair front a b rest) as [-> ->].
  cbn [mbind option_bind swap fst snd]. rewrite store_pair. reflexivity.
Qed.



Lemma normalize_little_endian (raster : list byte) (n : nat) :
  length raster = (2 * n)%nat ->
  normalize true (Z.of_nat (length raster)) raster = map_pairs swap raster.
Proof.
  intros Hlen. unfold normalize.
  apply (for_each_pairs swap swap_body swap_body_pair raster n Hlen).
Qed.

End ByteOrderFacts.



(** * Binary64 arithmetic on small integers

    The [double] expressions of the program only meet integers far below
    2^53: conversions, differences and the product with 65534 are exact,
    and the quotient, once truncated, is the truncated integer quotient. *)

Section DoubleFacts.
Import Double.

Lemma digits2_size (p : positive) : digits2_pos p = Pos.size p.
Proof. induction p; simpl; congruence. Qed.

Lemma Zdigits2_bounds (z : Z) :
  0 < z -> 2 ^ (Zdigits2 z - 1) <= z < 2 ^ Zdigits2 z.
Proof.
  destruct z as [|p|p]; try lia. intros _. simpl Zdigits2.
  rewrite digits2_size.
  pose proof (Pos.size_gt p) as Hgt. pose proof (Pos.size_le p) as Hle.
  apply Pos2Z.pos_lt_pos in Hgt. apply Pos2Z.pos_le_pos in Hle.
  rewrite Pos2Z.inj_pow in Hgt, Hle.
  split; [|exact Hgt].
  replace (Z.pos (Pos.size p)) with (Z.succ (Z.pos (Pos.size p) - 1)) in Hle by lia.
  rewrite Z.pow_succ_r in Hle by lia. lia.
Qed.

Lemma Zdigits2_unique (z k : Z) :
  2 ^ (k - 1) <= z < 2 ^ k -> 0 < z -> Zdigits2 z = k.
Proof.
  intros Hk Hz. pose proof (Zdigits2_bounds z Hz) as Hd.
  assert (0 < Zdigits2 z) by (destruct z; simpl; lia).
  assert (0 < k).
  { destruct (Z.ltb_spec 0 k) as [|Hk0]; [assumption|].
    destruct (Z.eq_dec k 0) as [->|Hne]; [simpl in Hk; lia|].
    rewrite (Z.pow_neg_r 2 k) in Hk by lia. lia. }
  destruct (Z.lt_trichotomy (Zdigits2 z) k) as [Hlt|[Heq|Hgt]]; [|assumption|].
  - assert (2 ^ Zdigits2 z <= 2 ^ (k - 1)) by (apply Z.pow_le_mono_r; lia). lia.
  - assert (2 ^ k <= 2 ^ (Zdigits2 z - 1)) by (apply Z.pow_le_mono_r; lia). lia.
Qed.

Lemma fexp_normal (e : Z) : -1021 <= e -> fexp prec emax e = e - 53.
Proof. unfold fexp, emin, prec, emax. lia. Qed.

Lemma shr_1_exact (m : Z) :
  0 <= m -> shr_1 (Build_shr_record (2 * m) false false) = Build_shr_record m false false.
Proof. destruct m as [|p|p]; intros H; try reflexivity; lia. Qed.

Lemma iter_shr_exact (p : positive) :
  forall m, 0 <= m ->
    SpecFloat.iter_pos shr_1 p (Build_shr_record (m * 2 ^ Zpos p) false false) = Build_shr_record m false false.
Proof.
  induction p as [p IH|p IH|]; intros m Hm; cbn [SpecFloat.iter_pos].
  - replace (m * 2 ^ Z.pos p~1) with (2 * ((m * 2 ^ Z.pos p) * 2 ^ Z.pos p)).
    + rewrite shr_1_exact by lia. rewrite IH by lia. apply IH. assumption.
    + assert (E : 2 ^ Z.pos p~1 = 2 * (2 ^ Z.pos p * 2 ^ Z.pos p)).
      { rewrite <- Z.pow_add_r, <- Z.pow_succ_r by lia. f_equal. lia. }
      rewrite E. ring.
  - replace (m * 2 ^ Z.pos p~0) with ((m * 2 ^ Z.pos p) * 2 ^ Z.pos p).
    + rewrite IH by lia. apply IH. assumption.
    + assert (E : 2 ^ Z.pos p~0 = 2 ^ Z.pos p * 2 ^ Z.pos p).
      { rewrite <- Z.pow_add_r by lia. f_equal. lia. }
      rewrite E. ring.
  - rewrite Z.pow_1_r, Z.mul_comm. apply shr_1_exact. assumption.
Qed.

Lemma shr_exact (m e n : Z) :
  0 <= m -> 0 <= n ->
  shr (Build_shr_record (m * 2 ^ n) false false) e n = (Build_shr_record m false false, e + n).
Proof.
  intros Hm Hn. destruct n as [|p|p]; try lia.
  - simpl. rewrite Z.mul_1_r, Z.add_0_r. reflexivity.
  - unfold shr. rewrite iter_shr_exact by assumption. reflexivity.
Qed.

Lemma Zdigits2_mul_pow2 (z n : Z) :
  0 < z -> 0 <= n -> Zdigits2 (z * 2 ^ n) = Zdigits2 z + n.
Proof.
  intros Hz Hn. pose proof (Zdigits2_bounds z Hz) as [Hlo Hhi].
  assert (0 < Zdigits2 z) by (destruct z; simpl; lia).
  assert (0 < 2 ^ n) by (apply Z.pow_pos_nonneg; lia).
  apply Zdigits2_unique; [|nia].
  replace (Zdigits2 z + n - 1) with ((Zdigits2 z - 1) + n) by lia.
  rewrite (Z.pow_add_r 2 (Zdigits2 z - 1) n), (Z.pow_add_r 2 (Zdigits2 z) n) by lia. nia.
Qed.

Lemma binary_round_aux_exact (s : bool) (M e n : Z) :
  0 < M -> Zdigits2 M = 53 -> 0 <= n -> -1074 <= e + n <= 971 ->
  binary_round_aux prec emax s (M * 2 ^ n) e loc_Exact
  = S754_finite s (Z.to_pos M) (e + n).
Proof.
  intros HMpos HM Hn He.
  unfold binary_round_aux, shr_fexp.
  rewrite Zdigits2_mul_pow2 by lia. rewrite HM.
  rewrite fexp_normal by lia.
  replace (53 + n + e - 53 - e) with n by lia.
  cbn [shr_record_of_loc]. rewrite shr_exact by lia.
  cbn [shr_m loc_of_shr_record round_nearest_even]. rewrite HM.
  rewrite fexp_normal by lia.
  replace (53 + (e + n) - 53 - (e + n)) with 0 by lia.
  cbn [shr shr_m].
  destruct M as [|p|p]; try lia.
  replace (e + n <=? emax - prec) with true; [reflexivity|].
  symmetry. apply Z.leb_le. unfold emax, prec. lia.
Qed.

Lemma pos_iter_xO (m d : positive) :
  Zpos (Pos.iter xO m d) = Zpos m * 2 ^ Zpos d.
Proof.
  rewrite <- Z.shiftl_mul_pow2 by lia. unfold Z.shiftl.
  apply (Pos.iter_swap_gen _ _ Zpos xO (Z.mul 2)). reflexivity.
Qed.

Lemma shl_align_spec (mx : positive) (ex ex' : Z) :
  shl_align mx ex ex'
  = if ex' <? ex then (Z.to_pos (Zpos mx * 2 ^ (ex - ex')), ex') else (mx, ex).
Proof.
  unfold shl_align. destruct (Z.ltb_spec ex' ex) as [Hlt|Hge].
  - destruct (ex' - ex) as [|d|d] eqn:E; try lia.
    replace (ex - ex') with (Zpos d) by lia.
    rewrite <- pos_iter_xO. reflexivity.
  - destruct (ex' - ex) as [|d|d] eqn:E; try lia; reflexivity.
Qed.

Lemma Zdigits2_pos (z : Z) : 0 < z -> 0 < Zdigits2 z.
Proof. destruct z; simpl; lia. Qed.

Lemma binary_round_int (s : bool) (z j : Z) :
  0 < z -> Zdigits2 z <= 53 -> 0 <= j <= 1000 ->
  binary_round prec emax s (Z.to_pos (z * 2 ^ j)) (- j) = finite_of s z.
Proof.
  intros Hz Hd Hj. pose proof (Zdigits2_pos z Hz) as Hd0.
  assert (Hpj : 0 < 2 ^ j) by (apply Z.pow_pos_nonneg; lia).
  assert (Hzj : 0 < z * 2 ^ j) by nia.
  unfold binary_round.
  change (Zpos (digits2_pos (Z.to_pos (z * 2 ^ j))))
    with (Zdigits2 (Zpos (Z.to_pos (z * 2 ^ j)))).
  rewrite Z2Pos.id by assumption.
  rewrite Zdigits2_mul_pow2 by lia.
  rewrite fexp_normal by lia.
  rewrite shl_align_spec. rewrite Z2Pos.id by assumption.
  set (M := z * 2 ^ (53 - Zdigits2 z)).
  assert (HMpos : 0 < M).
  { unfold M. assert (0 < 2 ^ (53 - Zdigits2 z)) by (apply Z.pow_pos_nonneg; lia). nia. }
  assert (HMd : Zdigits2 M = 53).
  { unfold M. rewrite Zdigits2_mul_pow2 by lia. lia. }
  unfold finite_of. fold M.
  destruct (Z.ltb_spec (Zdigits2 z + j + - j - 53) (- j)) as [Hlt|Hge].
  - cbv beta iota zeta. rewrite Z2Pos.id.
    + replace (z * 2 ^ j * 2 ^ (- j - (Zdigits2 z + j + - j - 53))) with (M * 2 ^ 0).
      * rewrite binary_round_aux_exact by lia. f_equal. lia.
      * unfold M. rewrite Z.pow_0_r, Z.mul_1_r, <- Z.mul_assoc, <- Z.pow_add_r by lia.
        f_equal. f_equal. lia.
    + assert (0 < 2 ^ (- j - (Zdigits2 z + j + - j - 53))) by (apply Z.pow_pos_nonneg; lia). nia.
  - cbv beta iota zeta. rewrite Z2Pos.id by assumption.
    replace (z * 2 ^ j) with (M * 2 ^ (j - (53 - Zdigits2 z))).
    + rewrite binary_round_aux_exact by lia. f_equal. lia.
    + unfold M. rewrite <- Z.mul_assoc, <- Z.pow_add_r by lia. f_equal. f_equal. lia.
Qed.

Lemma of_int_canon (z : Z) : - 2 ^ 53 < z < 2 ^ 53 -> of_int z = canon z.
Proof.
  intros Hz. unfold of_int, binary_normalize.
  assert (Hd : forall p, Zpos p < 2 ^ 53 -> Zdigits2 (Zpos p) <= 53).
  { intros p Hp. pose proof (Zdigits2_bounds (Zpos p) eq_refl) as [Hlo _].
    destruct (Z.leb_spec (Zdigits2 (Zpos p)) 53) as [|Hgt]; [assumption|].
    assert (2 ^ 53 <= 2 ^ (Zdigits2 (Zpos p) - 1)) by (apply Z.pow_le_mono_r; lia). lia. }
  destruct z as [|p|p]; [reflexivity| |].
  - pose proof (binary_round_int false (Zpos p) 0) as H.
    rewrite Z.pow_0_r, Z.mul_1_r in H. apply H; try lia. apply Hd. lia.
  - pose proof (binary_round_int true (Zpos p) 0) as H.
    rewrite Z.pow_0_r, Z.mul_1_r in H. apply H; try lia. apply Hd. lia.
Qed.

(** ** Rounding a quotient of 53 or 54 digits *)

Lemma binary_round_aux_finish (s : bool) (mx ex : Z) (lx : location) :
  binary_round_aux prec emax s mx ex lx
  = let '(mrs, e) := shr_fexp prec emax mx ex lx in
    finish s (round_nearest_even (shr_m mrs) (loc_of_shr_record mrs)) e.
Proof. reflexivity. Qed.

Lemma finish_spec (s : bool) (m e : Z) :
  2 ^ 52 <= m <= 2 ^ 53 -> -1074 <= e <= 960 ->
  exists m' e', finish s m e = S754_finite s m' e'
                /\ e <= e' <= e + 1 /\ Zpos m' * 2 ^ (e' - e) = m.
Proof.
  intros Hm He. unfold finish, shr_fexp.
  destruct (Z.eq_dec m (2 ^ 53)) as [->|Hne].
  - rewrite (Zdigits2_unique (2 ^ 53) 54) by (simpl; lia).
    rewrite fexp_normal by lia.
    replace (54 + e - 53 - e) with 1 by lia.
    exists (Z.to_pos (2 ^ 52)), (e + 1). split; [|split].
    + cbn [shr_record_of_loc shr SpecFloat.iter_pos].
      change (2 ^ 53) with (2 * 2 ^ 52). rewrite shr_1_exact by (simpl; lia).
      cbn [shr_m]. change (2 ^ 52) with (Zpos (Z.to_pos (2 ^ 52))) at 1.
      cbv iota beta.
      replace (e + 1 <=? emax - prec) with true; [reflexivity|].
      symmetry. apply Z.leb_le. unfold emax, prec. lia.
    + lia.
    + replace (e + 1 - e) with 1 by lia. reflexivity.
  - rewrite (Zdigits2_unique m 53) by lia.
    rewrite fexp_normal by lia.
    replace (53 + e - 53 - e) with 0 by lia.
    cbn [shr_record_of_loc shr shr_m].
    destruct m as [|p|p]; try lia.
    exists p, e. split; [|split].
    + replace (e <=? emax - prec) with true; [reflexivity|].
      symmetry. apply Z.leb_le. unfold emax, prec. lia.
    + lia.
    + rewrite Z.sub_diag. lia.
Qed.

Lemma loc_of_shr_record_of_loc (m : Z) (l : location) :
  loc_of_shr_record (shr_record_of_loc m l) = l.
Proof. destruct l as [|[| |]]; reflexivity. Qed.

Lemma round_nearest_even_bounds (m : Z) (l : location) :
  m <= round_nearest_even m l <= m + 1
  /\ (l = loc_Exact -> round_nearest_even m l = m).
Proof.
  destruct l as [|[| |]]; cbn [round_nearest_even];
    try destruct (Z.even m); split; try lia; try reflexivity; discriminate.
Qed.

Lemma shr_1_halves (m0 b : Z) (l : location) :
  0 < m0 -> 0 <= b <= 1 ->
  let mrs := shr_1 (shr_record_of_loc (2 * m0 + b) l) in
  shr_m mrs = m0
  /\ (l = loc_Exact -> b = 0 -> loc_of_shr_record mrs = loc_Exact).
Proof.
  intros Hm Hb. destruct m0 as [|p|p]; try lia.
  assert (Hb' : b = 0 \/ b = 1) by lia.
  destruct Hb' as [-> | ->]; destruct l as [|[| |]]; cbn; split; try reflexivity; try discriminate; intros; try lia.
Qed.

Lemma round_quotient (s : bool) (Q e : Z) (l : location) :
  2 ^ 52 <= Q < 2 ^ 54 -> -1074 <= e <= 950 ->
  exists m' e',
    binary_round_aux prec emax s Q e l = S754_finite s m' e'
    /\ e <= e' <= e + 2
    /\ Q - Q mod 2 <= Zpos m' * 2 ^ (e' - e) <= Q + 2
    /\ (l = loc_Exact -> Q mod 2 = 0 -> Zpos m' * 2 ^ (e' - e) = Q).
Proof.
  intros HQ He. rewrite binary_round_aux_finish. unfold shr_fexp.
  destruct (Z.ltb_spec Q (2 ^ 53)) as [Hlt|Hge].
  - rewrite (Zdigits2_unique Q 53) by lia.
    rewrite fexp_normal by lia. replace (53 + e - 53 - e) with 0 by lia.
    cbn [shr]. cbv beta iota zeta.
    rewrite loc_of_shr_record_of_loc.
    replace (shr_m (shr_record_of_loc Q l)) with Q by (destruct l as [|[| |]]; reflexivity).
    destruct (round_nearest_even_bounds Q l) as [Hb Hex].
    destruct (finish_spec s (round_nearest_even Q l) e) as (m' & e' & Hf & He' & Hv); try lia.
    exists m', e'. rewrite Hf, Hv. repeat split; try lia.
    + pose proof (Z.mod_pos_bound Q 2). lia.
    + intros Hl _. apply Hex, Hl.
  - rewrite (Zdigits2_unique Q 54) by lia.
    rewrite fexp_normal by lia. replace (54 + e - 53 - e) with 1 by lia.
    cbn [shr SpecFloat.iter_pos]. cbv beta iota zeta.
    pose proof (Z.div_mod Q 2 ltac:(lia)) as HQ2.
    pose proof (Z.mod_pos_bound Q 2 ltac:(lia)) as Hmod.
    set (m0 := Q / 2) in *. set (b := Q mod 2) in *.
    rewrite HQ2.
    destruct (shr_1_halves m0 b l) as [Hm0 Hex0]; try lia.
    rewrite Hm0.
    destruct (round_nearest_even_bounds m0
                (loc_of_shr_record (shr_1 (shr_record_of_loc (2 * m0 + b) l))))
      as [Hb Hex].
    destruct (finish_spec s (round_nearest_even m0
                (loc_of_shr_record (shr_1 (shr_record_of_loc (2 * m0 + b) l)))) (e + 1))
      as (m' & e' & Hf & He' & Hv); try lia.
    exists m', e'. rewrite Hf. 
    assert (Hv2 : Zpos m' * 2 ^ (e' - e) = 2 * round_nearest_even m0
                (loc_of_shr_record (shr_1 (shr_record_of_loc (2 * m0 + b) l)))).
    { rewrite <- Hv. replace (e' - e) with (1 + (e' - (e + 1))) by lia.
      rewrite Z.pow_add_r by lia. change (2 ^ 1) with 2. ring. }
    rewrite Hv2. repeat split; try lia.
    intros Hl Hb0. rewrite Hex; [lia|]. apply Hex0; assumption.
Qed.

Lemma Zdigits2_le_53 (z : Z) : 0 < z < 2 ^ 53 -> Zdigits2 z <= 53.
Proof.
  intros Hz. pose proof (Zdigits2_bounds z ltac:(lia)) as [Hlo _].
  destruct (Z.leb_spec (Zdigits2 z) 53) as [|Hgt]; [assumption|].
  assert (2 ^ 53 <= 2 ^ (Zdigits2 z - 1)) by (apply Z.pow_le_mono_r; lia). lia.
Qed.

Lemma binary_normalize_int (z j : Z) :
  - 2 ^ 53 < z < 2 ^ 53 -> 0 <= j <= 1000 ->
  binary_normalize prec emax (z * 2 ^ j) (- j) false = canon z.
Proof.
  intros Hz Hj. assert (Hpj : 0 < 2 ^ j) by (apply Z.pow_pos_nonneg; lia).
  destruct z as [|p|p].
  - reflexivity.
  - pose proof (binary_round_int false (Zpos p) j) as H.
    destruct (Zpos p * 2 ^ j) as [|q|q] eqn:E; try lia.
    cbn [binary_normalize canon]. cbn [Z.to_pos] in H. apply H; try lia.
    apply Zdigits2_le_53. lia.
  - pose proof (binary_round_int true (Zpos p) j) as H.
    assert (E' : Zneg p * 2 ^ j = - (Zpos p * 2 ^ j)) by lia.
    rewrite E'. destruct (Zpos p * 2 ^ j) as [|q|q] eqn:E; try lia.
    cbn [Z.opp binary_normalize canon]. cbn [Z.to_pos] in H. apply H; try lia.
    apply Zdigits2_le_53. lia.
Qed.

(** The mantissa of [finite_of s z] brought to the exponent [- j]. *)
Lemma finite_of_align (z j : Z) :
  0 < z -> Zdigits2 z <= 53 -> 53 - Zdigits2 z <= j ->
  Zpos (fst (shl_align (Z.to_pos (z * 2 ^ (53 - Zdigits2 z))) (Zdigits2 z - 53) (- j)))
  = z * 2 ^ j.
Proof.
  intros Hz Hd Hj. pose proof (Zdigits2_pos z Hz) as Hd0.
  assert (HM : 0 < z * 2 ^ (53 - Zdigits2 z)).
  { assert (0 < 2 ^ (53 - Zdigits2 z)) by (apply Z.pow_pos_nonneg; lia). nia. }
  rewrite shl_align_spec.
  destruct (Z.ltb_spec (- j) (Zdigits2 z - 53)) as [Hlt|Hge]; cbn [fst].
  - rewrite !Z2Pos.id; try assumption.
    + rewrite <- Z.mul_assoc, <- Z.pow_add_r by lia. f_equal. f_equal. lia.
    + rewrite Z2Pos.id by assumption.
      assert (0 < 2 ^ (Zdigits2 z - 53 - - j)) by (apply Z.pow_pos_nonneg; lia). nia.
  - rewrite Z2Pos.id by assumption. f_equal. f_equal. lia.
Qed.

Lemma canon_finite (z : Z) :
  z <> 0 -> canon z = finite_of (z <? 0) (Z.abs z).
Proof. destruct z; [congruence | reflexivity | reflexivity]. Qed.

Lemma cond_Zopp_abs (z : Z) : cond_Zopp (z <? 0) (Z.abs z) = z.
Proof. destruct z; reflexivity. Qed.

Lemma sub_canon (a b : Z) :
  - 2 ^ 52 < a < 2 ^ 52 -> - 2 ^ 52 < b < 2 ^ 52 ->
  sub (canon a) (canon b) = canon (a - b).
Proof.
  intros Ha Hb.
  destruct (Z.eq_dec a 0) as [->|Ha0]; [destruct b; reflexivity|].
  destruct (Z.eq_dec b 0) as [->|Hb0]; [rewrite Z.sub_0_r; destruct a; reflexivity|].
  rewrite (canon_finite a Ha0), (canon_finite b Hb0).
  unfold sub, finite_of. cbn [SFsub].
  set (da := Zdigits2 (Z.abs a)). set (db := Zdigits2 (Z.abs b)).
  assert (Hda : 0 < da <= 53).
  { split; [apply Zdigits2_pos; lia | apply Zdigits2_le_53; lia]. }
  assert (Hdb : 0 < db <= 53).
  { split; [apply Zdigits2_pos; lia | apply Zdigits2_le_53; lia]. }
  set (j := - Z.min (da - 53) (db - 53)).
  replace (Z.min (da - 53) (db - 53)) with (- j) by lia.
  unfold da, db. rewrite !finite_of_align; try lia; fold da; fold db; try lia.
  rewrite <- (cond_Zopp_abs a) at 3. rewrite <- (cond_Zopp_abs b) at 3.
  replace (cond_Zopp (a <? 0) (Z.abs a * 2 ^ j) - cond_Zopp (b <? 0) (Z.abs b * 2 ^ j))
    with ((cond_Zopp (a <? 0) (Z.abs a) - cond_Zopp (b <? 0) (Z.abs b)) * 2 ^ j)
    by (destruct (a <? 0), (b <? 0); cbn [cond_Zopp]; ring).
  apply binary_normalize_int; rewrite ?cond_Zopp_abs; lia.
Qed.

Lemma finite_of_mantissa (z : Z) :
  0 < z -> Zdigits2 z <= 53 ->
  let M := z * 2 ^ (53 - Zdigits2 z) in
  Zpos (Z.to_pos M) = M /\ 2 ^ 52 <= M < 2 ^ 53 /\ Zdigits2 M = 53.
Proof.
  intros Hz Hd M. pose proof (Zdigits2_pos z Hz) as Hd0.
  assert (Hp : 0 < 2 ^ (53 - Zdigits2 z)) by (apply Z.pow_pos_nonneg; lia).
  assert (HM : 0 < M) by (unfold M; nia).
  assert (HMd : Zdigits2 M = 53) by (unfold M; rewrite Zdigits2_mul_pow2 by lia; lia).
  split; [apply Z2Pos.id; assumption|]. split; [|assumption].
  pose proof (Zdigits2_bounds M HM) as HB. rewrite HMd in HB. exact HB.
Qed.

Lemma mul_canon (a b : Z) :
  0 < b -> - 2 ^ 53 < a * b < 2 ^ 53 ->
  mul (canon a) (canon b) = canon (a * b).
Proof.
  intros Hb Hab.
  destruct (Z.eq_dec a 0) as [->|Ha0]; [destruct b; try lia; reflexivity|].
  assert (Hz : 0 < Z.abs a * b) by nia.
  assert (Habs : Z.abs (a * b) = Z.abs a * b) by (rewrite Z.abs_mul; lia).
  assert (Hsgn : (a * b <? 0) = (a <? 0)).
  { destruct (Z.ltb_spec a 0), (Z.ltb_spec (a * b) 0); try reflexivity; nia. }
  rewrite (canon_finite a Ha0), (canon_finite b ltac:(lia)), (canon_finite (a * b) ltac:(nia)).
  rewrite Habs, Hsgn. replace (b <? 0) with false by (symmetry; apply Z.ltb_ge; lia).
  replace (Z.abs b) with b by lia.
  assert (Hda : Zdigits2 (Z.abs a) <= 53) by (apply Zdigits2_le_53; nia).
  assert (Hdb : Zdigits2 b <= 53) by (apply Zdigits2_le_53; nia).
  assert (Hdz : Zdigits2 (Z.abs a * b) <= 53) by (apply Zdigits2_le_53; lia).
  destruct (finite_of_mantissa (Z.abs a) ltac:(lia) Hda) as (Ea & _ & _).
  destruct (finite_of_mantissa b Hb Hdb) as (Eb & _ & _).
  destruct (finite_of_mantissa (Z.abs a * b) Hz Hdz) as (Ez & HMz & HdMz).
  pose proof (Zdigits2_bounds (Z.abs a) ltac:(lia)) as [Hlo_a Hhi_a].
  pose proof (Zdigits2_bounds b Hb) as [Hlo_b Hhi_b].
  pose proof (Zdigits2_bounds (Z.abs a * b) Hz) as [Hlo_z Hhi_z].
  pose proof (Zdigits2_pos (Z.abs a) ltac:(lia)) as Hda0.
  pose proof (Zdigits2_pos b Hb) as Hdb0.
  set (da := Zdigits2 (Z.abs a)) in *. set (db := Zdigits2 b) in *.
  set (dz := Zdigits2 (Z.abs a * b)) in *.
  assert (Hn : da + db - 2 < dz).
  { destruct (Z.ltb_spec (da + db - 2) dz) as [|Hge]; [assumption|].
    assert (2 ^ dz <= 2 ^ (da + db - 2)) by (apply Z.pow_le_mono_r; lia).
    replace (da + db - 2) with ((da - 1) + (db - 1)) in H by lia.
    rewrite Z.pow_add_r in H by lia.
    assert (2 ^ (da - 1) * 2 ^ (db - 1) <= Z.abs a * b) by (apply Z.mul_le_mono_nonneg; lia).
    lia. }
  unfold mul, finite_of. cbn [SFmul]. fold da db dz.
  rewrite Pos2Z.inj_mul, Ea, Eb, xorb_false_r.
  replace (Z.abs a * 2 ^ (53 - da) * (b * 2 ^ (53 - db)))
    with ((Z.abs a * b * 2 ^ (53 - dz)) * 2 ^ (53 - da - db + dz)).
  - rewrite binary_round_aux_exact; try lia. f_equal. lia.
  - rewrite <- !Z.mul_assoc. f_equal.
    rewrite (Z.mul_comm (2 ^ (53 - da))), <- !Z.mul_assoc. f_equal.
    rewrite <- !Z.pow_add_r by lia. f_equal. lia.
Qed.

Lemma new_location_0 (nb : Z) : new_location nb 0 = loc_Exact.
Proof. unfold new_location. destruct (Z.even nb); reflexivity. Qed.

Lemma SFdiv_core_binary_spec (m1 e1 m2 e2 : Z) :
  0 < m1 -> 0 < m2 -> Zdigits2 m1 = 53 -> Zdigits2 m2 = 53 ->
  -900 <= e1 - e2 ->
  SFdiv_core_binary prec emax m1 e1 m2 e2
  = (m1 * 2 ^ 53 / m2, e1 - e2 - 53, new_location m2 ((m1 * 2 ^ 53) mod m2)).
Proof.
  intros H1 H2 Hd1 Hd2 He. unfold SFdiv_core_binary.
  rewrite Hd1, Hd2. rewrite fexp_normal by lia.
  replace (Z.min (53 + e1 - (53 + e2) - 53) (e1 - e2)) with (e1 - e2 - 53) by lia.
  replace (e1 - e2 - (e1 - e2 - 53)) with 53 by lia.
  cbv iota beta. rewrite Z.shiftl_mul_pow2 by lia.
  unfold Z.div, Z.modulo.
  destruct (Z.div_eucl (m1 * 2 ^ 53) m2) as [q r]. reflexivity.
Qed.

(** Truncating the rounded quotient gives the integer quotient. *)
Lemma quotient_trunc_arith (N D t Y : Z) :
  0 < N -> 0 < D -> 1 <= t -> 4 * D <= 2 ^ t ->
  let Q := N * 2 ^ t / D in
  Q - Q mod 2 <= Y <= Q + 2 ->
  ((N * 2 ^ t) mod D = 0 -> Q mod 2 = 0 -> Y = Q) ->
  Y / 2 ^ t = N / D.
Proof.
  intros HN HD Ht H4 Q HY Hex.
  pose proof (Z.div_mod N D ltac:(lia)) as HND.
  pose proof (Z.mod_pos_bound N D HD) as Hr0.
  set (q0 := N / D) in *. set (r0 := N mod D) in *.
  assert (Hp : 0 < 2 ^ t) by (apply Z.pow_pos_nonneg; lia).
  assert (HN2 : N * 2 ^ t = q0 * 2 ^ t * D + r0 * 2 ^ t) by (rewrite HND at 1; ring).
  assert (HQ : Q = q0 * 2 ^ t + r0 * 2 ^ t / D).
  { unfold Q. rewrite HN2. rewrite Z.add_comm, Z.div_add by lia. ring. }
  assert (HR : (N * 2 ^ t) mod D = (r0 * 2 ^ t) mod D).
  { rewrite HN2. rewrite Z.add_comm, Z.mod_add by lia. reflexivity. }
  pose proof (Z.mod_pos_bound Q 2 ltac:(lia)) as HQ2.
  destruct (Z.eq_dec r0 0) as [E0|Hne].
  - rewrite E0 in *. rewrite Z.mul_0_l in *. rewrite Z.div_0_l, Z.add_0_r in HQ by lia.
    rewrite Z.mod_0_l in HR by lia.
    assert (Q mod 2 = 0).
    { rewrite HQ. replace t with (1 + (t - 1)) by lia.
      rewrite Z.pow_add_r by lia. change (2 ^ 1) with 2.
      replace (q0 * (2 * 2 ^ (t - 1))) with (q0 * 2 ^ (t - 1) * 2) by ring.
      apply Z.mod_mul. lia. }
    rewrite (Hex HR H), HQ. apply Z.div_mul. lia.
  - set (u := r0 * 2 ^ t / D) in *.
    assert (Hu1 : 4 <= u).
    { apply Z.div_le_lower_bound; nia. }
    assert (Hu2 : u <= 2 ^ t - 4).
    { assert (u < 2 ^ t - 3); [|lia]. apply Z.div_lt_upper_bound; nia. }
    symmetry. apply Z.div_unique with (r := Y - q0 * 2 ^ t); lia.
Qed.

Lemma quot_cond_Zopp (n d : Z) :
  d <> 0 ->
  Z.quot n d = cond_Zopp (xorb (n <? 0) (d <? 0)) (Z.abs n / Z.abs d).
Proof.
  intros Hd.
  rewrite <- (Z.quot_div_nonneg (Z.abs n) (Z.abs d)) by lia.
  destruct n as [|p|p], d as [|q|q]; try congruence; cbn [Z.ltb Z.compare xorb cond_Zopp Z.abs];
    try reflexivity.
  - change (Zneg q) with (- Zpos q). rewrite Z.quot_opp_r by lia. reflexivity.
  - change (Zneg p) with (- Zpos p). rewrite Z.quot_opp_l by lia. reflexivity.
  - change (Zneg p) with (- Zpos p). change (Zneg q) with (- Zpos q).
    rewrite Z.quot_opp_opp by lia. reflexivity.
Qed.

Lemma div_canon_trunc (n d : Z) :
  - 2 ^ 51 < n < 2 ^ 51 -> - 2 ^ 53 < d < 2 ^ 53 -> d <> 0 ->
  trunc (div (canon n) (canon d)) = Some (Z.quot n d).
Proof.
  intros Hn Hd Hd0.
  destruct (Z.eq_dec n 0) as [->|Hn0].
  { rewrite Z.quot_0_l by assumption. destruct d; try congruence; reflexivity. }
  rewrite (canon_finite n Hn0), (canon_finite d Hd0), quot_cond_Zopp by assumption.
  set (N := Z.abs n). set (D := Z.abs d).
  assert (HN : 0 < N < 2 ^ 51) by (unfold N; lia).
  assert (HD : 0 < D < 2 ^ 53) by (unfold D; lia).
  assert (HdN : Zdigits2 N <= 51).
  { pose proof (Zdigits2_bounds N ltac:(lia)) as [Hlo _].
    destruct (Z.leb_spec (Zdigits2 N) 51) as [|Hgt]; [assumption|].
    assert (2 ^ 51 <= 2 ^ (Zdigits2 N - 1)) by (apply Z.pow_le_mono_r; lia). lia. }
  assert (HdD : Zdigits2 D <= 53) by (apply Zdigits2_le_53; lia).
  pose proof (Zdigits2_pos N ltac:(lia)) as HdN0.
  pose proof (Zdigits2_pos D ltac:(lia)) as HdD0.
  destruct (finite_of_mantissa N ltac:(lia) ltac:(lia)) as (E1 & HM1 & Hd1).
  destruct (finite_of_mantissa D ltac:(lia) HdD) as (E2 & HM2 & Hd2).
  pose proof (Zdigits2_bounds D ltac:(lia)) as [_ HDhi].
  unfold div, finite_of. cbn [SFdiv].
  set (dn := Zdigits2 N) in *. set (dd := Zdigits2 D) in *.
  rewrite E1, E2.
  set (M1 := N * 2 ^ (53 - dn)) in *. set (M2 := D * 2 ^ (53 - dd)) in *.
  rewrite SFdiv_core_binary_spec by lia.
  set (t := 53 - dn + dd).
  assert (Hc : 0 < 2 ^ (53 - dd)) by (apply Z.pow_pos_nonneg; lia).
  assert (HM1t : M1 * 2 ^ 53 = N * 2 ^ t * 2 ^ (53 - dd)).
  { unfold M1, t. rewrite <- !Z.mul_assoc, <- !Z.pow_add_r by lia. f_equal. f_equal. lia. }
  assert (HQ : M1 * 2 ^ 53 / M2 = N * 2 ^ t / D).
  { rewrite HM1t. unfold M2. apply Z.div_mul_cancel_r; lia. }
  assert (HR : (M1 * 2 ^ 53) mod M2 = (N * 2 ^ t) mod D * 2 ^ (53 - dd)).
  { rewrite HM1t. unfold M2. apply Z.mul_mod_distr_r; lia. }
  assert (HQb : 2 ^ 52 <= M1 * 2 ^ 53 / M2 < 2 ^ 54).
  { split.
    - apply Z.div_le_lower_bound; [lia|]. nia.
    - apply Z.div_lt_upper_bound; [lia|]. nia. }
  destruct (round_quotient (xorb (n <? 0) (d <? 0)) (M1 * 2 ^ 53 / M2) (dn - 53 - (dd - 53) - 53)
              (new_location M2 ((M1 * 2 ^ 53) mod M2)))
    as (m' & e' & Hres & He' & HY & Hex); try lia.
  rewrite Hres. cbn [trunc]. f_equal. f_equal.
  rewrite Z.shiftl_div_pow2 by lia.
  assert (H4 : 4 * D <= 2 ^ t).
  { unfold t. replace (53 - dn + dd) with ((53 - dn) + dd) by lia.
    rewrite Z.pow_add_r by lia.
    assert (2 ^ 2 <= 2 ^ (53 - dn)) by (apply Z.pow_le_mono_r; lia).
    change (2 ^ 2) with 4 in H. nia. }
  rewrite <- (quotient_trunc_arith N D t (Z.pos m' * 2 ^ (e' - (dn - 53 - (dd - 53) - 53))));
    try lia.
  - replace (2 ^ t) with (2 ^ (- e') * 2 ^ (e' - (dn - 53 - (dd - 53) - 53))).
    + symmetry. apply Z.div_mul_cancel_r.
      * apply Z.pow_nonzero; lia.
      * apply Z.pow_nonzero; lia.
    + rewrite <- Z.pow_add_r by lia. f_equal. unfold t. lia.
  - cbv zeta. rewrite <- HQ. exact HY.
  - intros HR0 HQ0. rewrite <- HQ. apply Hex.
    + rewrite HR, HR0, Z.mul_0_l. apply new_location_0.
    + rewrite HQ. exact HQ0.
Qed.

End DoubleFacts.

(** * The samples of a buffer *)

Section SampleFacts.
Import Sample.

Lemma byte_to_Z_bounds (b : byte) : 0 <= byte_to_Z b <= 255.
Proof. unfold byte_to_Z. pose proof (Byte.to_N_bounded b). lia. Qed.

Lemma signed16_word16_bounds (is_little_endian : bool) (a b : byte) :
  -32768 <= signed16 (word16 is_little_endian a b) <= 32767.
Proof.
  pose proof (byte_to_Z_bounds a). pose proof (byte_to_Z_bounds b).
  unfold signed16, word16.
  destruct is_little_endian;
    match goal with |- context [?u <? 32768] => destruct (Z.ltb_spec u 32768) end;
    lia.
Qed.

(** Every sample read from a buffer is an [int16_t]. *)
Lemma samples_int16 (is_little_endian : bool) (raster : list byte) :
  Forall (fun temp => -32768 <= temp <= 32767)
         (samples is_little_endian raster).
Proof.
  induction raster as [|a|a b rest IH] using list_pair_ind; cbn [samples].
  - constructor.
  - constructor.
  - constructor; [apply signed16_word16_bounds | exact IH].
Qed.

End SampleFacts.

(** * The range scanner *)

Section ScannerFacts.
Import Raster Sample Scanner.

(** The loop of lines 221-234 is the fold of [step] over the samples. *)
Lemma scan_samples_spec (is_little_endian : bool) (raster : list byte) :
  Nat.Even (length raster) ->
  scan is_little_endian (Z.of_nat (length raster)) raster
  = Some (scan_samples (samples is_little_endian raster)).
Proof.
  intros [n Hlen]. unfold scan, scan_body, scan_samples.
  apply (for_each_samples is_little_endian step raster n initial Hlen).
Qed.

Lemma scanned_step (seen : list Z) (r : ElevationRange) (temp : Z) :
  -32768 <= temp <= 32767 ->
  scanned seen r -> scanned (seen ++ [temp]) (step temp r).
Proof.
  intros Htemp (Hmin & Hmax & Hlow). unfold step, sentinel in *.
  destruct (Z.ltb_spec temp (minimum r)) as [Hlt|Hge].
  - destruct (Z.eqb_spec temp (-32768)) as [Heq|Hne]; cbn [negb];
      (split; [|split]); cbn [minimum maximum]; try lia;
      intros x Hx Hs; apply in_app_or in Hx; destruct Hx as [Hx|[<-|[]]];
      try (specialize (Hlow x Hx Hs)); unfold sentinel in *; lia.
  - destruct (Z.gtb_spec temp (maximum r)) as [Hgt|Hle];
      (split; [|split]); cbn [minimum maximum]; try lia;
      intros x Hx Hs; apply in_app_or in Hx; destruct Hx as [Hx|[<-|[]]];
      try (specialize (Hlow x Hx Hs)); unfold sentinel in *; lia.
Qed.

Lemma scanned_fold (grid : list Z) :
  Forall (fun temp => -32768 <= temp <= 32767) grid ->
  forall seen r, scanned seen r ->
    scanned (seen ++ grid) (fold_left (fun r temp => step temp r) grid r).
Proof.
  induction 1 as [|temp grid Htemp _ IH]; intros seen r Hr; cbn [fold_left].
  - rewrite app_nil_r. exact Hr.
  - replace (seen ++ temp :: grid) with ((seen ++ [temp]) ++ grid)
      by (rewrite <- app_assoc; reflexivity).
    apply IH, scanned_step; assumption.
Qed.

(** The discovered minimum is below every sample that is not the
    sentinel, and both bounds are in the range of the samples. *)
Lemma scan_samples_scanned (grid : list Z) :
  Forall (fun temp => -32768 <= temp <= 32767) grid ->
  scanned grid (scan_samples grid).
Proof.
  intros Hgrid. apply (scanned_fold grid Hgrid [] initial).
  unfold scanned, initial. cbn [minimum maximum]. repeat split; try lia.
  intros temp [].
Qed.

End ScannerFacts.

(** C4. The claim is that after the scan [maximum >= minimum] whenever
    the grid holds a sample that is not the sentinel.  On the grid of the
    single sample 5 the scan ends with [minimum = 5] and
    [maximum = -32768]: the sample takes the branch of the minimum and is
    never compared with the maximum. *)
Theorem scan_single_sample_maximum_below_minimum :
  Sample.samples true [x05; x00] = [5]
  /\ Scanner.scan true 2 [x05; x00]
     = Some {| Scanner.minimum := 5; Scanner.maximum := -32768;
               Scanner.invalid := 0 |}
  /\ Scanner.maximum (Scanner.scan_samples [5])
     < Scanner.minimum (Scanner.scan_samples [5])
  /\ Main.stdout
       (Main.main {| Main.argv := ["hgt2png"; "N00E000.hgt"; "1"; "1"]%string;
                     Main.hgt_file := Some [x00; x05];
                     Main.is_little_endian := true;
                     Main.fopen_ok := fun _ => true;
                     Main.write_ok := fun _ => true |})
     = [Main.FileInfo "N00E000.hgt" 2 1 1 1;
        Main.Bounds 0 "N" 0 "E";
        Main.Range 5 (-32768) 0;
        Main.Compression].
Proof. repeat split; vm_compute; reflexivity. Qed.

(** * The elevation rescaler *)

Section RescalerFacts.
Import Raster Sample Scanner Rescaler.

(** The [double] expression of line 251 computes the truncated integer
    quotient. *)
Lemma rescaled_int_spec (minimum maximum svalue : Z) :
  -32768 <= minimum <= 32768 -> -32768 <= maximum <= 32768 ->
  -32768 <= svalue <= 32767 ->
  rescaled minimum maximum svalue = rescaled_int minimum maximum svalue.
Proof.
  intros Hmin Hmax Hs. unfold rescaled, rescaled_int, rescale_sample.
  destruct (svalue =? -32768); [reflexivity|].
  unfold minf_of, deltaf_of, quotient.
  rewrite !of_int_canon by lia.
  rewrite !sub_canon by lia.
  rewrite mul_canon by lia.
  set (n := (svalue - minimum) * 65534). set (d := maximum - minimum).
  destruct (Z.eqb_spec d 0) as [->|Hd].
  - destruct n; reflexivity.
  - unfold Double.to_uint16. rewrite div_canon_trunc by (unfold n, d; lia).
    reflexivity.
Qed.

(** Inside a range that is not empty the quotient is a value of
    [[0, 65534]]. *)
Lemma quotient_bounds (minimum maximum svalue : Z) :
  minimum < maximum -> minimum <= svalue <= maximum ->
  0 <= quotient minimum maximum svalue <= 65534.
Proof.
  intros Hd Hs. unfold quotient.
  rewrite Z.quot_div_nonneg by nia. split.
  - apply Z.div_pos; nia.
  - apply Z.div_le_upper_bound; nia.
Qed.

Lemma rescaled_in_range (minimum maximum svalue : Z) :
  -32768 <= minimum <= 32768 -> -32768 <= maximum <= 32767 ->
  svalue <> sentinel -> minimum < maximum -> minimum <= svalue <= maximum ->
  rescaled minimum maximum svalue = Some (quotient minimum maximum svalue).
Proof.
  intros Hmin Hmax Hne Hd Hs. rewrite rescaled_int_spec by lia.
  unfold rescaled_int, sentinel in *.
  destruct (Z.eqb_spec svalue (-32768)); [contradiction|].
  destruct (Z.eqb_spec (maximum - minimum) 0); [lia|].
  pose proof (quotient_bounds minimum maximum svalue Hd Hs) as Hq.
  cbv zeta.
  destruct (Z.leb_spec 0 (quotient minimum maximum svalue)); [|lia].
  destruct (Z.leb_spec (quotient minimum maximum svalue) 65535); [|lia].
  reflexivity.
Qed.

(** With [maximum = minimum] the quotient is [0.0 / 0.0] or a division
    of a nonzero number by zero, and the conversion of the result to
    [uint16_t] is undefined. *)
Lemma rescaled_flat (minimum svalue : Z) :
  -32768 <= minimum <= 32768 -> -32768 <= svalue <= 32767 ->
  svalue <> sentinel ->
  rescaled minimum minimum svalue = None.
Proof.
  intros Hmin Hs Hne. rewrite rescaled_int_spec by lia.
  unfold rescaled_int, sentinel in *.
  destruct (Z.eqb_spec svalue (-32768)); [contradiction|].
  rewrite Z.sub_diag. reflexivity.
Qed.

Lemma rescale_body_pair (is_little_endian : bool) (minf deltaf : spec_float)
      (front : list byte) (a b : byte) (rest : list byte) :
  rescale_body is_little_endian minf deltaf (length front)
               (front ++ a :: b :: rest)
  = (ab ← rescale_pair is_little_endian minf deltaf a b;
     Some (front ++ fst ab :: snd ab :: rest)).
Proof.
  unfold rescale_body, rescale_pair. rewrite load_int16_pair.
  cbn [mbind option_bind].
  destruct (rescale_sample minf deltaf
              (signed16 (word16 is_little_endian a b))) as [u|]; [|reflexivity].
  cbn [mbind option_bind]. unfold store_uint16.
  destruct (bytes16 is_little_endian u) as [b0 b1]. cbn [fst snd].
  rewrite store_pair. reflexivity.
Qed.

(** The loop of lines 246-252 rescales the samples one by one, and is
    undefined as soon as one of them is. *)
Lemma rescale_spec (is_little_endian : bool) (minimum maximum : Z)
      (raster : list byte) :
  Nat.Even (length raster) ->
  rescale is_little_endian (Z.of_nat (length raster)) minimum maximum raster
  = (values ← mapM (rescaled minimum maximum)
                   (samples is_little_endian raster);
     Some (encode is_little_endian values)).
Proof.
  intros [n Hlen]. unfold rescale.
  rewrite (for_each_pairs _ _ (rescale_body_pair is_little_endian _ _) raster n Hlen).
  unfold rescaled. revert raster Hlen.
  induction n as [|n IH]; intros raster Hlen.
  - destruct raster; [reflexivity | discriminate].
  - destruct raster as [|a [|b rest]]; simpl in Hlen; try lia.
    cbn [map_pairs samples mapM].
    assert (E : rescale_pair is_little_endian (minf_of minimum)
                  (deltaf_of minimum maximum) a b
                = (u ← rescale_sample (minf_of minimum)
                         (deltaf_of minimum maximum)
                         (signed16 (word16 is_little_endian a b));
                   Some (bytes16 is_little_endian u))) by reflexivity.
    rewrite E. clear E.
    destruct (rescale_sample (minf_of minimum) (deltaf_of minimum maximum)
                (signed16 (word16 is_little_endian a b))) as [u|];
      [|reflexivity].
    cbn [mbind option_bind fst snd]. rewrite (IH rest) by lia.
    destruct (mapM _ (samples is_little_endian rest)) as [values|];
      [|reflexivity].
    cbn [mbind option_bind mret option_ret fmap option_fmap option_map encode].
    destruct (bytes16 is_little_endian u) as [b0 b1]. reflexivity.
Qed.

End RescalerFacts.

(** C1. The claim is that a grid whose samples other than the sentinel
    are all equal has every such sample rescaled to 0.  On the grid of
    the two samples 7 and 7 the scan finds [minimum = maximum = 7], the
    rescaler divides [0.0] by [0.0] and converts the NaN to [uint16_t],
    which is undefined: there is no case for [deltaf == 0]. *)
Theorem flat_grid_rescale_undefined :
  Scanner.scan_samples [7; 7]
  = {| Scanner.minimum := 7; Scanner.maximum := 7; Scanner.invalid := 0 |}
  /\ Double.div (Double.mul (Double.sub (Double.of_int 7) (Rescaler.minf_of 7))
                            (Double.of_int 65534))
                (Rescaler.deltaf_of 7 7) = S754_nan
  /\ Rescaler.rescaled 7 7 7 = None
  /\ Main.main {| Main.argv := ["hgt2png"; "N00E000.hgt"; "2"; "1"]%string;
                  Main.hgt_file := Some [x00; x07; x00; x07];
                  Main.is_little_endian := true;
                  Main.fopen_ok := fun _ => true;
                  Main.write_ok := fun _ => true |}
     = {| Main.status := Main.Undefined;
          Main.stdout := [Main.FileInfo "N00E000.hgt" 4 2 1 2;
                          Main.Bounds 0 "N" 0 "E";
                          Main.Range 7 7 0];
          Main.buffer := [];
          Main.files := [] |}.
Proof. repeat split; vm_compute; reflexivity. Qed.

(** C5, as amended.  Every sentinel sample of a grid is rescaled to
    [0xFFFF]; and when the discovered range has [maximum - minimum > 0],
    every other sample that does not exceed the discovered maximum is
    rescaled to [(raw - minimum) * 65534 / (maximum - minimum)] truncated
    toward zero, a value in [[0, 65534]], hence not [0xFFFF]. *)
Theorem rescale_truncates (is_little_endian : bool) (raster : list byte)
        (range : Scanner.ElevationRange) (raw : Z) :
  Nat.Even (length raster) ->
  Scanner.scan is_little_endian (Z.of_nat (length raster)) raster = Some range ->
  In raw (Sample.samples is_little_endian raster) ->
  (raw = Sample.sentinel ->
   Rescaler.rescaled (Scanner.minimum range) (Scanner.maximum range) raw
   = Some 65535)
  /\ (raw <> Sample.sentinel ->
      Scanner.maximum range - Scanner.minimum range > 0 ->
      raw <= Scanner.maximum range ->
      Rescaler.rescaled (Scanner.minimum range) (Scanner.maximum range) raw
      = Some (Rescaler.quotient (Scanner.minimum range)
                                (Scanner.maximum range) raw)
      /\ 0 <= Rescaler.quotient (Scanner.minimum range)
                                (Scanner.maximum range) raw <= 65534).
Proof.
  intros Heven Hscan Hin.
  rewrite scan_samples_spec in Hscan by assumption.
  injection Hscan as <-.
  pose proof (samples_int16 is_little_endian raster) as Hint.
  destruct (scan_samples_scanned _ Hint) as (Hmin & Hmax & Hlow).
  split.
  - intros ->. reflexivity.
  - intros Hne Hd Hle. specialize (Hlow raw Hin Hne).
    split.
    + apply rescaled_in_range; lia.
    + apply quotient_bounds; lia.
Qed.

Lemma rescale_truncates_witness :
  Nat.Even (length [x00; x00; x03; x00; x01; x00])
  /\ In 1 (Sample.samples true [x00; x00; x03; x00; x01; x00])
  /\ Rescaler.rescaled 0 3 1 = Some (Rescaler.quotient 0 3 1)
  /\ 0 <= Rescaler.quotient 0 3 1 <= 65534.
Proof.
  assert (Heven : Nat.Even (length [x00; x00; x03; x00; x01; x00]))
    by (exists 3%nat; reflexivity).
  assert (Hin : In 1 (Sample.samples true [x00; x00; x03; x00; x01; x00]))
    by (right; right; left; reflexivity).
  split; [exact Heven|]. split; [exact Hin|].
  apply (proj2 (rescale_truncates true [x00; x00; x03; x00; x01; x00]
                  {| Scanner.minimum := 0; Scanner.maximum := 3;
                     Scanner.invalid := 0 |} 1 Heven eq_refl Hin)).
  - discriminate.
  - reflexivity.
  - discriminate.
Defined.

(** C5, as stated, fails on the grid 0, 3, 1: the range is [0, 3], and the
    sample 1 is rescaled to 21844, the quotient 65534 / 3 with its
    fraction cut off, where rounding gives 21845. *)
Lemma rescale_rounding_counterexample :
  ~ Spec.rescales_by_rounding [0; 3; 1].
Proof.
  intros Hclaim.
  destruct (Hclaim 1 ltac:(right; right; left; reflexivity)) as [_ Hround].
  destruct Hround as [Heq _]; [discriminate | reflexivity |].
  vm_compute in Heq. discriminate.
Qed.

(** A sample above the discovered maximum.  On the grid 2, -32767, 1 the
    scan misses the maximum 2 (it is the first sample and only lowers the
    minimum), the range is [-32767, 1], and the sample 2 is rescaled to
    [0xFFFF]. *)
Lemma rescale_above_maximum_example :
  Scanner.scan_samples [2; -32767; 1]
  = {| Scanner.minimum := -32767; Scanner.maximum := 1;
       Scanner.invalid := 0 |}
  /\ Rescaler.rescaled (-32767) 1 2 = Some 65535.
Proof. split; vm_compute; reflexivity. Qed.

(** C8, as amended.  Under a range with [minimum < maximum], for raw
    samples [raw1 <= raw2] of which none is the sentinel, the rescaled
    values are in the same order whenever both are defined; and they are
    defined for all samples between [minimum] and [maximum]. *)
Theorem rescale_monotone (minimum maximum raw1 raw2 : Z) :
  -32768 <= minimum <= 32768 -> -32768 <= maximum <= 32767 ->
  -32768 <= raw1 <= 32767 -> -32768 <= raw2 <= 32767 ->
  minimum < maximum -> raw1 <> Sample.sentinel -> raw1 <= raw2 ->
  (forall v1 v2,
      Rescaler.rescaled minimum maximum raw1 = Some v1 ->
      Rescaler.rescaled minimum maximum raw2 = Some v2 -> v1 <= v2)
  /\ (minimum <= raw1 -> raw2 <= maximum ->
      exists v1 v2,
        Rescaler.rescaled minimum maximum raw1 = Some v1
        /\ Rescaler.rescaled minimum maximum raw2 = Some v2
        /\ v1 <= v2).
Proof.
  intros Hmin Hmax H1 H2 Hd Hne Hle. unfold Sample.sentinel in Hne.
  assert (Hquot : Rescaler.quotient minimum maximum raw1
                  <= Rescaler.quotient minimum maximum raw2).
  { unfold Rescaler.quotient. apply Z.quot_le_mono; nia. }
  split.
  - intros v1 v2. rewrite !rescaled_int_spec by lia. unfold Rescaler.rescaled_int.
    destruct (Z.eqb_spec raw1 (-32768)); [contradiction|].
    destruct (Z.eqb_spec raw2 (-32768)); [lia|].
    destruct (Z.eqb_spec (maximum - minimum) 0); [lia|]. cbv zeta.
    destruct ((0 <=? Rescaler.quotient minimum maximum raw1)
              && (Rescaler.quotient minimum maximum raw1 <=? 65535));
      [|discriminate].
    destruct ((0 <=? Rescaler.quotient minimum maximum raw2)
              && (Rescaler.quotient minimum maximum raw2 <=? 65535));
      [|discriminate].
    intros [= <-] [= <-]. exact Hquot.
  - intros Hlo Hhi.
    exists (Rescaler.quotient minimum maximum raw1),
           (Rescaler.quotient minimum maximum raw2).
    repeat split; [apply rescaled_in_range | apply rescaled_in_range | exact Hquot];
      unfold Sample.sentinel; lia.
Qed.

Lemma rescale_monotone_witness :
  exists v1 v2,
    Rescaler.rescaled 0 3 1 = Some v1
    /\ Rescaler.rescaled 0 3 2 = Some v2
    /\ v1 <= v2.
Proof.
  apply (proj2 (rescale_monotone 0 3 1 2 ltac:(lia) ltac:(lia) ltac:(lia)
                  ltac:(lia) ltac:(lia) ltac:(discriminate) ltac:(lia)));
    lia.
Defined.

(** C8, as stated for all raw samples, fails at the sentinel: under the
    range [0, 10] the raw sample -32768 is rescaled to 65535 and the
    larger raw sample 0 to 0. *)
Lemma rescale_monotone_counterexample :
  ~ Spec.non_decreasing_at 0 10 (-32768) 0.
Proof.
  intros Hclaim.
  destruct (Hclaim ltac:(lia)) as (v1 & v2 & Hv1 & Hv2 & Hle).
  vm_compute in Hv1, Hv2.
  injection Hv1 as <-. injection Hv2 as <-. lia.
Qed.

(** * The tile planner *)

Section TilePlannerFacts.
Import TilePlanner.

Variables cols subwidth subheight : Z.

(** One tile row: the column offset advances by [subheight - 1]. *)
Lemma col_rounds (n : nat) :
  forall (o : Offsets) (acc : list Offsets),
    iterate n (col_round record subheight) (o, acc)
    = inr ({| row_offset := row_offset o;
              col_offset := col_offset o + Z.of_nat n * (subheight - 1) |},
           acc ++ map (fun c =>
                         {| row_offset := row_offset o;
                            col_offset := col_offset o
                                          + Z.of_nat c * (subheight - 1) |})
                      (seq 0 n)).
Proof.
  induction n as [|n IH]; intros o acc.
  - cbn [iterate seq map]. rewrite app_nil_r. destruct o as [r c].
    cbn [row_offset col_offset]. do 3 f_equal. lia.
  - cbn [iterate]. unfold col_round at 1, record at 1. cbn [fst snd].
    rewrite IH. unfold next_col. cbn [row_offset col_offset].
    f_equal. f_equal.
    + f_equal. lia.
    + rewrite <- app_assoc. f_equal. cbn [seq map app]. f_equal.
      * destruct o as [r c]. cbn [row_offset col_offset]. f_equal. lia.
      * rewrite <- List.seq_shift, List.map_map. apply List.map_ext. intros c.
        f_equal. lia.
Qed.

Lemma flat_map_seq_shift {A : Type} (f : nat -> list A) (n : nat) :
  forall a, flat_map f (seq (S a) n) = flat_map (fun r => f (S r)) (seq a n).
Proof.
  induction n as [|n IH]; intros a; cbn [seq flat_map].
  - reflexivity.
  - f_equal. apply IH.
Qed.

(** The tile rows: the row offset advances by [subwidth - 1]. *)
Lemma row_rounds (m : nat) :
  forall (r0 : Z) (acc : list Offsets),
    iterate m (row_round record cols subwidth subheight)
            ({| row_offset := r0; col_offset := 0 |}, acc)
    = inr ({| row_offset := r0 + Z.of_nat m * (subwidth - 1);
              col_offset := 0 |},
           acc ++ flat_map
                    (fun r =>
                       map (fun c =>
                              {| row_offset := r0 + Z.of_nat r * (subwidth - 1);
                                 col_offset := Z.of_nat c * (subheight - 1) |})
                           (seq 0 (Z.to_nat cols)))
                    (seq 0 m)).
Proof.
  induction m as [|m IH]; intros r0 acc.
  - cbn [iterate seq flat_map]. rewrite app_nil_r. do 3 f_equal. lia.
  - cbn [iterate]. unfold row_round at 1. rewrite col_rounds.
    unfold next_row. cbn [fst snd row_offset col_offset].
    rewrite IH. f_equal. f_equal.
    + f_equal. lia.
    + rewrite <- app_assoc. f_equal. cbn [seq flat_map]. f_equal.
      * apply List.map_ext. intros c. f_equal. lia.
      * rewrite flat_map_seq_shift.
        apply List.flat_map_ext. intros r. apply List.map_ext. intros c. f_equal. lia.
Qed.

End TilePlannerFacts.

(** The loops visit [rows * cols] tiles in row-major order; the row offset
    of tile [(r, c)] is [r * (subwidth - 1)] and its column offset is
    [c * (subheight - 1)]. *)
Lemma plan_offsets (width height rows cols : Z) :
  TilePlanner.plan width height rows cols
  = flat_map
      (fun r =>
         map (fun c =>
                {| TilePlanner.row_offset :=
                     Z.of_nat r * (TilePlanner.subwidth width cols - 1);
                   TilePlanner.col_offset :=
                     Z.of_nat c * (TilePlanner.subheight height rows - 1) |})
             (seq 0 (Z.to_nat cols)))
      (seq 0 (Z.to_nat rows)).
Proof.
  unfold TilePlanner.plan, TilePlanner.tile_loops, TilePlanner.origin.
  rewrite row_rounds. reflexivity.
Qed.


(** C2. The claim is that column offsets advance by [subwidth - 1] and
    row offsets by [subheight - 1].  For a 5 x 9 grid cut into 2 x 2
    tiles ([subwidth = 3], [subheight = 5]) the loops give the column
    offsets 0 and 4 and the row offsets 0 and 2: line 368 adds
    [subheight - 1] to [col_offset] and line 371 adds [subwidth - 1] to
    [row_offset], the two steps exchanged. *)
Theorem plan_steps_exchanged :
  TilePlanner.verify 5 9 2 2 = None
  /\ TilePlanner.subwidth 5 2 = 3
  /\ TilePlanner.subheight 9 2 = 5
  /\ TilePlanner.plan 5 9 2 2
     = [ {| TilePlanner.row_offset := 0; TilePlanner.col_offset := 0 |};
         {| TilePlanner.row_offset := 0; TilePlanner.col_offset := 4 |};
         {| TilePlanner.row_offset := 2; TilePlanner.col_offset := 0 |};
         {| TilePlanner.row_offset := 2; TilePlanner.col_offset := 4 |} ]
  /\ TilePlanner.spec_plan 5 9 2 2
     = [ {| TilePlanner.row_offset := 0; TilePlanner.col_offset := 0 |};
         {| TilePlanner.row_offset := 0; TilePlanner.col_offset := 2 |};
         {| TilePlanner.row_offset := 4; TilePlanner.col_offset := 0 |};
         {| TilePlanner.row_offset := 4; TilePlanner.col_offset := 2 |} ]
  /\ TilePlanner.plan 5 9 2 2 <> TilePlanner.spec_plan 5 9 2 2
  /\ map fst
         (Main.files
            (Main.main
               {| Main.argv :=
                    ["hgt2png"; "N00E000.hgt"; "5"; "9"; "2"; "2"]%string;
                  Main.hgt_file := Some ([x00; x00] ++ repeat x01 88);
                  Main.is_little_endian := true;
                  Main.fopen_ok := fun _ => true;
                  Main.write_ok := fun _ => true |}))
     = ["N00E000.0.0.png"; "N00E000.0.4.png";
        "N00E000.2.0.png"; "N00E000.2.4.png"]%string.
Proof.
  split; [reflexivity|]. split; [reflexivity|]. split; [reflexivity|].
  split; [reflexivity|]. split; [reflexivity|].
  split; [discriminate | vm_compute; reflexivity].
Qed.

(** On a square grid cut into as many rows as columns the exchange does
    not show: the loops give the offsets of the specification. *)
Lemma plan_square (width rows : Z) :
  TilePlanner.plan width width rows rows
  = TilePlanner.spec_plan width width rows rows.
Proof. rewrite plan_offsets. reflexivity. Qed.


(** * The arguments and the subdivision check *)

Section MainFacts.
Import TilePlanner Emitter Describe.

Lemma checked_in_range (z v : Z) :
  CInt.checked z = Some v -> v = z /\ CInt.min <= z <= CInt.max.
Proof.
  unfold CInt.checked, CInt.in_range.
  destruct (Z.leb_spec CInt.min z) as [Hlo|Hlo],
           (Z.leb_spec z CInt.max) as [Hhi|Hhi]; cbn [andb];
    intros Hsome; try discriminate.
  injection Hsome as <-. split; [reflexivity | lia].
Qed.

Lemma in_range_checked (z : Z) :
  CInt.min <= z <= CInt.max -> CInt.checked z = Some z.
Proof.
  intros Hz. unfold CInt.checked, CInt.in_range.
  destruct (Z.leb_spec CInt.min z), (Z.leb_spec z CInt.max); cbn [andb];
    [reflexivity | lia | lia | lia].
Qed.

(** The numbers of the command line are [int]s. *)
Lemma dimensions_in_range (argv : list string) (width height rows cols : Z) :
  Main.dimensions argv = Some (width, height, rows, cols) ->
  CInt.min <= width <= CInt.max /\ CInt.min <= height <= CInt.max
  /\ CInt.min <= rows <= CInt.max /\ CInt.min <= cols <= CInt.max.
Proof.
  unfold Main.dimensions, CLib.atoi.
  destruct (CInt.checked (CLib.decimal (nth 2 argv EmptyString)))
    as [w|] eqn:Hw; [|discriminate].
  destruct (CInt.checked (CLib.decimal (nth 3 argv EmptyString)))
    as [h|] eqn:Hh; [|discriminate].
  cbn [mbind option_bind].
  apply checked_in_range in Hw as (-> & Hw), Hh as (-> & Hh).
  assert (Hone : CInt.min <= 1 <= CInt.max) by (unfold CInt.min, CInt.max; lia).
  destruct (Z.of_nat (length argv) >=? 5).
  - destruct (CInt.checked (CLib.decimal (nth 4 argv EmptyString)))
      as [r|] eqn:Hr; [|discriminate].
    destruct (CInt.checked (CLib.decimal (nth 5 argv EmptyString)))
      as [c|] eqn:Hc; [|discriminate].
    cbn [mbind option_bind].
    apply checked_in_range in Hr as (-> & Hr), Hc as (-> & Hc).
    intros H. injection H as <- <- <- <-. repeat split; lia.
  - cbn [mbind option_bind].
    intros H. injection H as <- <- <- <-. repeat split; lia.
Qed.

(** A run that gets past the arguments and the opening of the source
    file goes on to the checks. *)
Lemma started_main (env : Main.Environment) (contents : list byte)
      (width height rows cols product : Z) :
  started env contents width height rows cols product ->
  Main.main env
  = Main.process env (source env) contents width height rows cols
                 (to_size_t product).
Proof.
  intros (Husage & Hdim & Hmul & Hfile). unfold Main.main.
  rewrite Husage, Hdim, Hmul, Hfile. reflexivity.
Qed.

Lemma verify_below_one (width height rows cols : Z) :
  rows < 1 \/ cols < 1 ->
  verify width height rows cols = Some (Rejected BelowOne).
Proof.
  intros Hrc. unfold verify.
  destruct (Z.ltb_spec cols 1), (Z.ltb_spec rows 1); try reflexivity; lia.
Qed.

Lemma in_range_pred (z : Z) :
  CInt.min < z <= CInt.max -> CInt.in_range (z - 1) = true.
Proof.
  intros Hz. unfold CInt.in_range.
  destruct (Z.leb_spec CInt.min (z - 1)), (Z.leb_spec (z - 1) CInt.max);
    cbn [andb]; [reflexivity | lia | lia | lia].
Qed.

Lemma verify_width (width height rows cols : Z) :
  1 <= rows -> cols > 1 -> CInt.min < width <= CInt.max ->
  Z.rem (width - 1) cols <> 0 ->
  verify width height rows cols
  = Some (Rejected (WidthNotDivisible width cols)).
Proof.
  intros Hr Hc Hw Hrem. unfold verify.
  destruct (Z.ltb_spec cols 1); [lia|]. destruct (Z.ltb_spec rows 1); [lia|].
  destruct (Z.gtb_spec cols 1); [|lia]. rewrite in_range_pred by exact Hw.
  destruct (Z.eqb_spec (Z.rem (width - 1) cols) 0); [contradiction|].
  reflexivity.
Qed.

Lemma verify_height (width height rows cols : Z) :
  1 <= cols -> rows > 1 -> CInt.min < height <= CInt.max ->
  Z.rem (height - 1) rows <> 0 ->
  (cols > 1 -> CInt.min < width <= CInt.max /\ Z.rem (width - 1) cols = 0) ->
  verify width height rows cols
  = Some (Rejected (HeightNotDivisible height rows)).
Proof.
  intros Hc Hr Hh Hrem Hw. unfold verify.
  destruct (Z.ltb_spec cols 1); [lia|]. destruct (Z.ltb_spec rows 1); [lia|].
  cbn [orb]. rewrite (in_range_pred height) by exact Hh.
  destruct (Z.gtb_spec cols 1) as [Hc1|Hc1]; cbn [andb negb].
  - destruct (Hw ltac:(lia)) as (Hw1 & Hw2).
    rewrite in_range_pred by exact Hw1. rewrite Hw2. cbn [Z.eqb negb].
    destruct (Z.gtb_spec rows 1); [|lia]. cbn [andb].
    destruct (Z.eqb_spec (Z.rem (height - 1) rows) 0); [contradiction|].
    reflexivity.
  - destruct (Z.gtb_spec rows 1); [|lia]. cbn [andb].
    destruct (Z.eqb_spec (Z.rem (height - 1) rows) 0); [contradiction|].
    reflexivity.
Qed.

(** A request that the check rejects ends the run at its diagnostic. *)
Lemma rejected_run (env : Main.Environment) (contents : list byte)
      (width height rows cols product : Z) (e : ConfigurationError) :
  started env contents width height rows cols product ->
  verify width height rows cols = Some (Rejected e) ->
  Main.main env
  = {| Main.status := Main.Exit 1;
       Main.stdout := [file_info env contents width height product;
                       Main.Configuration e];
       Main.buffer := [];
       Main.files := [] |}.
Proof.
  intros Hstart Hverify. rewrite (started_main _ _ _ _ _ _ _ Hstart).
  unfold Main.process. rewrite Hverify. reflexivity.
Qed.

End MainFacts.

(** C7, as amended.  In a run that has read its arguments and opened the
    source file: a request with [rows < 1] or [cols < 1] is rejected with
    the diagnostic that both must be at least 1, which names neither a
    dimension nor a divisor; a request with [cols > 1] and
    [(width - 1) % cols != 0] is rejected with the diagnostic of the
    width, which names the width and the divisor [cols]; a request with
    [rows > 1] and [(height - 1) % rows != 0] that passes the check of
    the width is rejected with the diagnostic of the height, which names
    the height and the divisor [rows].  Each rejection ends the run with
    status 1, before the size of the file is looked at and with no output
    file; a width of 5 with 3 columns is rejected with the diagnostic of
    the width, 5 and 3.  ([INT_MIN] is left out as a dimension that is
    checked: [width - 1] and [height - 1] are computed on [int].) *)
Theorem subdivision_rejected (env : Main.Environment) (contents : list byte)
        (width height rows cols product : Z) :
  let rejected e :=
    Main.main env
    = {| Main.status := Main.Exit 1;
         Main.stdout := [Describe.file_info env contents width height product;
                         Main.Configuration e];
         Main.buffer := [];
         Main.files := [] |} in
  Describe.started env contents width height rows cols product ->
  (rows < 1 \/ cols < 1 ->
   rejected TilePlanner.BelowOne
   /\ TilePlanner.named TilePlanner.BelowOne = None)
  /\ (1 <= rows -> cols > 1 -> CInt.min < width ->
      Z.rem (width - 1) cols <> 0 ->
      rejected (TilePlanner.WidthNotDivisible width cols)
      /\ TilePlanner.named (TilePlanner.WidthNotDivisible width cols)
         = Some (width, cols))
  /\ (1 <= cols -> rows > 1 -> CInt.min < height ->
      Z.rem (height - 1) rows <> 0 ->
      (cols > 1 -> CInt.min < width /\ Z.rem (width - 1) cols = 0) ->
      rejected (TilePlanner.HeightNotDivisible height rows)
      /\ TilePlanner.named (TilePlanner.HeightNotDivisible height rows)
         = Some (height, rows))
  /\ (CInt.min < width -> CInt.min < height ->
      rows < 1 \/ cols < 1
      \/ (cols > 1 /\ Z.rem (width - 1) cols <> 0)
      \/ (rows > 1 /\ Z.rem (height - 1) rows <> 0) ->
      exists e, rejected e)
  /\ (width = 5 -> cols = 3 -> 1 <= rows ->
      rejected (TilePlanner.WidthNotDivisible 5 3)).
Proof.
  intros rejected Hstart.
  pose proof Hstart as (_ & Hdim & _ & _).
  apply dimensions_in_range in Hdim as (Hw & Hh & _ & _).
  assert (Hrej : forall e,
             TilePlanner.verify width height rows cols
             = Some (TilePlanner.Rejected e) -> rejected e).
  { intros e He. exact (rejected_run _ _ _ _ _ _ _ _ Hstart He). }
  split; [|split; [|split; [|split]]].
  - intros H. split; [|reflexivity]. apply Hrej, verify_below_one, H.
  - intros Hr Hc Hmin Hrem. split; [|reflexivity].
    apply Hrej, verify_width; [assumption | assumption | lia | assumption].
  - intros Hc Hr Hmin Hrem Hwidth. split; [|reflexivity].
    apply Hrej, verify_height; [assumption | assumption | lia | assumption |].
    intros Hc1. destruct (Hwidth Hc1). split; [lia | assumption].
  - intros Hminw Hminh H.
    destruct (Z.ltb_spec rows 1) as [Hr|Hr];
      [eexists; apply Hrej, verify_below_one; lia|].
    destruct (Z.ltb_spec cols 1) as [Hc|Hc];
      [eexists; apply Hrej, verify_below_one; lia|].
    destruct (Z.gtb_spec cols 1) as [Hc1|Hc1].
    + destruct (Z.eq_dec (Z.rem (width - 1) cols) 0) as [Hrem|Hrem].
      * eexists. apply Hrej, verify_height; lia.
      * eexists. apply Hrej, verify_width; [lia | lia | lia | assumption].
    + eexists. apply Hrej, verify_height; lia.
  - intros -> -> Hr. apply Hrej, verify_width; try lia.
    + unfold CInt.min, CInt.max. lia.
    + vm_compute. discriminate.
Qed.

Lemma subdivision_rejected_witness :
  Main.main
    {| Main.argv := ["hgt2png"; "N00E000.hgt"; "5"; "5"; "1"; "3"]%string;
       Main.hgt_file := Some (repeat x00 50);
       Main.is_little_endian := true;
       Main.fopen_ok := fun _ => true;
       Main.write_ok := fun _ => true |}
  = {| Main.status := Main.Exit 1;
       Main.stdout := [Main.FileInfo "N00E000.hgt" 50 5 5 25;
                       Main.Configuration
                         (TilePlanner.WidthNotDivisible 5 3)];
       Main.buffer := [];
       Main.files := [] |}.
Proof.
  apply (proj2 (proj2 (proj2 (proj2
           (subdivision_rejected
              {| Main.argv :=
                   ["hgt2png"; "N00E000.hgt"; "5"; "5"; "1"; "3"]%string;
                 Main.hgt_file := Some (repeat x00 50);
                 Main.is_little_endian := true;
                 Main.fopen_ok := fun _ => true;
                 Main.write_ok := fun _ => true |}
              (repeat x00 50) 5 5 1 3 25
              (conj eq_refl (conj eq_refl (conj eq_refl eq_refl)))))))).
  - reflexivity.
  - reflexivity.
  - lia.
Defined.

(** C7, as stated, fails on a request with no rows: the run is rejected,
    but the diagnostic that it prints carries neither a dimension nor a
    divisor. *)
Lemma subdivision_diagnostic_counterexample :
  ~ Spec.rejects_naming
      (Main.main
         {| Main.argv := ["hgt2png"; "N00E000.hgt"; "5"; "5"; "0"; "1"]%string;
            Main.hgt_file := Some (repeat x00 50);
            Main.is_little_endian := true;
            Main.fopen_ok := fun _ => true;
            Main.write_ok := fun _ => true |}).
Proof.
  intros (_ & _ & e & dimension & divisor & Hin & Hnamed).
  vm_compute in Hin. destruct Hin as [H | [H | []]]; [discriminate|].
  injection H as <-. discriminate.
Qed.

(** The same run, in full. *)
Lemma subdivision_no_rows_run :
  Main.main
    {| Main.argv := ["hgt2png"; "N00E000.hgt"; "5"; "5"; "0"; "1"]%string;
       Main.hgt_file := Some (repeat x00 50);
       Main.is_little_endian := true;
       Main.fopen_ok := fun _ => true;
       Main.write_ok := fun _ => true |}
  = {| Main.status := Main.Exit 1;
       Main.stdout := [Main.FileInfo "N00E000.hgt" 50 5 5 25;
                       Main.Configuration TilePlanner.BelowOne];
       Main.buffer := [];
       Main.files := [] |}.
Proof. vm_compute. reflexivity. Qed.

(** * The raster emitter *)

Section EmitterFacts.
Import TilePlanner Emitter.

Lemma displacement_wrap (z : Z) :
  - 2 ^ 63 <= z < 2 ^ 63 -> displacement (z mod 2 ^ 64) = z.
Proof.
  intros Hz. unfold displacement.
  destruct (Z.ltb_spec z 0) as [Hneg|Hpos].
  - replace (z mod 2 ^ 64) with (z + 2 ^ 64)
      by (apply Z.mod_unique with (q := -1); lia).
    destruct (Z.ltb_spec (z + 2 ^ 64) (2 ^ 63)); lia.
  - rewrite Z.mod_small by lia.
    destruct (Z.ltb_spec z (2 ^ 63)); lia.
Qed.

(** As long as the two [int] computations are defined, the row pointer
    is the start of the row plus the bytes of [col_offset - 1] samples. *)
Lemma row_pointer_exact (width row_abs col_offset : Z) :
  CInt.min <= row_abs * width <= CInt.max ->
  CInt.min <= col_offset - 1 <= CInt.max ->
  row_pointer width row_abs col_offset
  = Some (2 * (row_abs * width) + 2 * (col_offset - 1)).
Proof.
  intros Hrow Hcol. unfold row_pointer, CInt.mul, CInt.sub.
  rewrite !in_range_checked by assumption. cbn [mbind option_bind].
  unfold CInt.min, CInt.max in *. unfold to_size_t.
  rewrite !Z.mul_mod_idemp_l by lia.
  rewrite <- Z.add_mod by lia.
  rewrite displacement_wrap by lia. f_equal. lia.
Qed.

(** The row pointers of a tile for which every [int] computation is
    defined. *)
Lemma png_rows_exact (width subheight : Z) (o : Offsets) :
  CInt.min <= row_offset o + subheight <= CInt.max ->
  CInt.min <= col_offset o - 1 <= CInt.max ->
  (forall k, 0 <= k < subheight ->
             CInt.min <= (row_offset o + k) * width <= CInt.max) ->
  png_rows width subheight o
  = Some (map (fun k => 2 * ((row_offset o + Z.of_nat k) * width)
                        + 2 * (col_offset o - 1))
              (seq 0 (Z.to_nat subheight))).
Proof.
  intros Hbound Hcol Hrows. unfold png_rows, CInt.add.
  rewrite in_range_checked by exact Hbound. cbn [mbind option_bind].
  apply mapM_total. intros k Hk. apply in_seq in Hk.
  apply row_pointer_exact; [apply Hrows; lia | exact Hcol].
Qed.

(** Pixel [(r, c)] of such a tile is read one sample before the Grid
    sample of row [row_offset + r] and column [col_offset + c]. *)
Lemma pixel_byte_spec (width subheight : Z) (o : Offsets) (r c : nat) :
  Z.of_nat r < subheight ->
  CInt.min <= row_offset o + subheight <= CInt.max ->
  CInt.min <= col_offset o - 1 <= CInt.max ->
  (forall k, 0 <= k < subheight ->
             CInt.min <= (row_offset o + k) * width <= CInt.max) ->
  pixel_byte width subheight o r c
  = Some (grid_byte width (row_offset o + Z.of_nat r)
                    (col_offset o + Z.of_nat c) - 2).
Proof.
  intros Hr Hbound Hcol Hrows. unfold pixel_byte, grid_byte.
  rewrite png_rows_exact by assumption. cbn [mbind option_bind].
  change (map ?f ?l) with (f <$> l).
  rewrite list_lookup_fmap, lookup_seq_lt by lia.
  cbn [fmap option_fmap option_map mbind option_bind]. f_equal. lia.
Qed.

(** The first row pointer of the first tile is 2 bytes before the
    buffer, whatever the size of the grid. *)
Lemma origin_row_pointer (width : Z) : row_pointer width 0 0 = Some (-2).
Proof. reflexivity. Qed.

End EmitterFacts.

(** C3. The claim is that pixel [(r, c)] of a tile is the Grid sample of
    row [row_offset + r] and column [col_offset + c].  For the single
    tile of a 2 x 2 grid the row pointers are the byte indices -2 and 2,
    so that pixel (0, 0) is read 2 bytes before the buffer and pixel
    (1, 1) at byte 4, where the Grid samples (0, 0) and (1, 1) are at the
    bytes 0 and 6: line 330 adds [(col_offset - 1)] samples to the start
    of the row. *)
Theorem tile_pixel_one_sample_early :
  Emitter.png_rows 2 2 TilePlanner.origin = Some [-2; 2]
  /\ Emitter.pixel_byte 2 2 TilePlanner.origin 0 0 = Some (-2)
  /\ Emitter.grid_byte 2 0 0 = 0
  /\ Emitter.pixel_byte 2 2 TilePlanner.origin 1 1 = Some 4
  /\ Emitter.grid_byte 2 1 1 = 6
  /\ map (fun file => Emitter.rows (snd file))
         (Main.files
            (Main.main
               {| Main.argv := ["hgt2png"; "N00E000.hgt"; "2"; "2"]%string;
                  Main.hgt_file :=
                    Some [x00; x05; x00; x07; x80; x00; x00; x06];
                  Main.is_little_endian := true;
                  Main.fopen_ok := fun _ => true;
                  Main.write_ok := fun _ => true |}))
     = [[-2; 2]].
Proof. repeat split; vm_compute; reflexivity. Qed.

(** C10. The claim is that every row pointer, with the [subwidth * 2]
    bytes of its row, lies inside the buffer of [width * height * 2]
    bytes.  For the single tile of a 2 x 2 grid, a buffer of 8 bytes, the
    first row pointer is the byte index -2. *)
Theorem first_row_pointer_before_buffer :
  TilePlanner.plan 2 2 1 1 = [TilePlanner.origin]
  /\ Emitter.png_rows 2 (TilePlanner.subheight 2 1) TilePlanner.origin
     = Some [-2; 2]
  /\ Emitter.row_in_bounds (2 * 2 * 2) (TilePlanner.subwidth 2 1) (-2) = false
  /\ option_map
       (forallb (Emitter.row_in_bounds (2 * 2 * 2) (TilePlanner.subwidth 2 1)))
       (Emitter.png_rows 2 (TilePlanner.subheight 2 1) TilePlanner.origin)
     = Some false.
Proof. repeat split. Qed.

(** * The location in the file name *)

(** A file name whose longitude digits are missing keeps the initial -1
    there and is accepted. *)
Lemma sscanf_missing_longitude :
  FileName.sscanf (list_ascii_of_string "N36W.hgt")
  = {| FileName.hemi0 := "N"; FileName.hemi1 := "W";
       FileName.ll0 := 36; FileName.ll1 := -1 |}.
Proof. reflexivity. Qed.

(** The size that the file is compared with is twice the pixel count. *)
Lemma data_size_product (product : Z) :
  CInt.min <= product <= CInt.max ->
  Main.to_int64 (Emitter.to_size_t (Emitter.to_size_t product * 2))
  = product * 2.
Proof.
  unfold CInt.min, CInt.max. intros Hp. unfold Emitter.to_size_t.
  rewrite Z.mul_mod_idemp_l by lia.
  apply (displacement_wrap (product * 2)). lia.
Qed.

(** A run that passes the checks of the subdivision and of the file size
    goes on to the file name. *)
Lemma accepted_run (env : Main.Environment) (contents : list byte)
      (width height rows cols product : Z) :
  Describe.started env contents width height rows cols product ->
  TilePlanner.verify width height rows cols = None ->
  Z.of_nat (length contents) = product * 2 ->
  let file_name := FileName.file_name (Describe.source env) in
  let loc := FileName.sscanf file_name in
  let info := Describe.file_info env contents width height product in
  Main.main env
  = match FileName.base_name file_name with
    | None => Main.stop Main.Terminate [info]
    | Some base =>
        if negb (FileName.valid_hemi0 loc) || negb (FileName.valid_hemi1 loc)
        then Main.stop (Main.Exit 1)
               [info;
                Main.InvalidHemisphere
                  (if FileName.valid_hemi0 loc then FileName.hemi1 loc
                   else FileName.hemi0 loc)
                  (string_of_list_ascii file_name)]
        else Main.convert env
               [info;
                Main.Bounds (FileName.ll0 loc) (FileName.hemi0 loc)
                            (FileName.ll1 loc) (FileName.hemi1 loc)]
               base width rows cols
               (TilePlanner.subwidth width cols)
               (TilePlanner.subheight height rows)
               (product * 2) contents
    end.
Proof.
  intros Hstart Hverify Hsize file_name loc info.
  rewrite (started_main _ _ _ _ _ _ _ Hstart).
  destruct Hstart as (_ & _ & Hmul & _).
  apply checked_in_range in Hmul as (-> & Hproduct).
  unfold Main.process. rewrite Hverify.
  rewrite data_size_product by exact Hproduct.
  rewrite Hsize, Z.eqb_refl. cbn [negb]. rewrite <- Hsize. reflexivity.
Qed.

(** No line of the bounds among the lines printed. *)
Ltac no_bounds :=
  let Hin := fresh "Hin" in
  intros (? & ? & ? & ? & Hin); cbn in Hin;
  repeat (destruct Hin as [Hin | Hin]; [discriminate Hin|]);
  exact Hin.

(** C9, as amended.  When a hemisphere letter cannot be read from the
    name of the source file (the first character is not N or S, or the
    character behind the latitude digits is missing or is not W or E), no
    run goes on with a placeholder: the bounds are not printed and no
    output file is written.  For a run that has read its arguments,
    opened the source file and passed the checks of the subdivision and
    of the file size: if the file name has no dot, the run ends by the
    exception of [erase], which nothing catches, before the hemisphere
    letters are looked at; if it has a dot and a hemisphere letter is not
    valid, the run prints the invalid-hemisphere diagnostic and ends with
    status 1, before the raster is read; if it has a dot and both letters
    are valid, the run goes on to the conversion. *)
Theorem invalid_hemisphere_is_fatal (env : Main.Environment)
        (contents : list byte) (width height rows cols product : Z) :
  let file_name := FileName.file_name (Describe.source env) in
  let loc := FileName.sscanf file_name in
  let info := Describe.file_info env contents width height product in
  let invalid :=
    FileName.valid_hemi0 loc = false \/ FileName.valid_hemi1 loc = false in
  (invalid ->
   ~ Spec.continues_to_bounds (Main.main env)
   /\ Main.files (Main.main env) = [])
  /\ (Describe.started env contents width height rows cols product ->
      TilePlanner.verify width height rows cols = None ->
      Z.of_nat (length contents) = product * 2 ->
      (FileName.base_name file_name = None ->
       Main.main env
       = {| Main.status := Main.Terminate;
            Main.stdout := [info];
            Main.buffer := [];
            Main.files := [] |})
      /\ (forall base, FileName.base_name file_name = Some base ->
          (invalid ->
           Main.main env
           = {| Main.status := Main.Exit 1;
                Main.stdout :=
                  [info;
                   Main.InvalidHemisphere
                     (if FileName.valid_hemi0 loc then FileName.hemi1 loc
                      else FileName.hemi0 loc)
                     (string_of_list_ascii file_name)];
                Main.buffer := [];
                Main.files := [] |})
          /\ (FileName.valid_hemi0 loc = true ->
              FileName.valid_hemi1 loc = true ->
              Main.main env
              = Main.convert env
                  [info;
                   Main.Bounds (FileName.ll0 loc) (FileName.hemi0 loc)
                               (FileName.ll1 loc) (FileName.hemi1 loc)]
                  base width rows cols
                  (TilePlanner.subwidth width cols)
                  (TilePlanner.subheight height rows)
                  (product * 2) contents))).
Proof.
  intros file_name loc info invalid. split.
  - intros Hinvalid.
    assert (Hor : negb (FileName.valid_hemi0 loc)
                  || negb (FileName.valid_hemi1 loc) = true).
    { destruct Hinvalid as [-> | ->]; [reflexivity | apply orb_true_r]. }
    unfold Main.main. fold (Describe.source env).
    destruct (Main.usage _); [split; [no_bounds | reflexivity]|].
    destruct (Main.dimensions _) as [[[[w h] r] c]|];
      [|split; [no_bounds | reflexivity]].
    destruct (CInt.mul w h) as [p|]; [|split; [no_bounds | reflexivity]].
    destruct (Main.hgt_file env) as [bytes|];
      [|split; [no_bounds | reflexivity]].
    unfold Main.process.
    destruct (TilePlanner.verify w h r c) as [[e|]|];
      [split; [no_bounds | reflexivity]
      |split; [no_bounds | reflexivity]|].
    destruct (negb (_ =? _)); [split; [no_bounds | reflexivity]|].
    fold file_name. destruct (FileName.base_name file_name);
      [|split; [no_bounds | reflexivity]].
    fold loc. rewrite Hor. split; [no_bounds | reflexivity].
  - intros Hstart Hverify Hsize.
    pose proof (accepted_run _ _ _ _ _ _ _ Hstart Hverify Hsize) as Hrun.
    cbv zeta in Hrun. fold file_name loc info in Hrun.
    split.
    + intros Hbase. rewrite Hrun, Hbase. reflexivity.
    + intros base Hbase. rewrite Hbase in Hrun. split.
      * intros [H0 | H1]; rewrite Hrun.
        -- rewrite H0. reflexivity.
        -- rewrite H1. cbn [negb]. rewrite orb_true_r. reflexivity.
      * intros H0 H1. rewrite Hrun, H0, H1. reflexivity.
Qed.

Lemma invalid_hemisphere_is_fatal_witness :
  Main.main
    {| Main.argv := ["hgt2png"; "foo.hgt"; "1"; "1"]%string;
       Main.hgt_file := Some [x00; x05];
       Main.is_little_endian := true;
       Main.fopen_ok := fun _ => true;
       Main.write_ok := fun _ => true |}
  = {| Main.status := Main.Exit 1;
       Main.stdout := [Main.FileInfo "foo.hgt" 2 1 1 1;
                       Main.InvalidHemisphere "f" "foo.hgt"];
       Main.buffer := [];
       Main.files := [] |}.
Proof.
  apply (proj1 (proj2 (proj2
           (invalid_hemisphere_is_fatal
              {| Main.argv := ["hgt2png"; "foo.hgt"; "1"; "1"]%string;
                 Main.hgt_file := Some [x00; x05];
                 Main.is_little_endian := true;
                 Main.fopen_ok := fun _ => true;
                 Main.write_ok := fun _ => true |}
              [x00; x05] 1 1 1 1 1)
           (conj eq_refl (conj eq_refl (conj eq_refl eq_refl)))
           eq_refl eq_refl) "foo"%string eq_refl)).
  left. reflexivity.
Defined.

(** C9, as stated, fails on the source name [foo.hgt]: no hemisphere
    letter can be read, and the run ends with status 1 at the hemisphere
    check instead of going on to print the bounds. *)
Lemma format_error_counterexample :
  ~ Spec.continues_to_bounds
      (Main.main {| Main.argv := ["hgt2png"; "foo.hgt"; "1"; "1"]%string;
                    Main.hgt_file := Some [x00; x05];
                    Main.is_little_endian := true;
                    Main.fopen_ok := fun _ => true;
                    Main.write_ok := fun _ => true |}).
Proof.
  intros (ll0 & hemi0 & ll1 & hemi1 & Hin).
  vm_compute in Hin.
  destruct Hin as [H | [H | []]]; discriminate.
Qed.

(** The same run, in full. *)
Lemma format_error_run :
  Main.main {| Main.argv := ["hgt2png"; "foo.hgt"; "1"; "1"]%string;
               Main.hgt_file := Some [x00; x05];
               Main.is_little_endian := true;
               Main.fopen_ok := fun _ => true;
               Main.write_ok := fun _ => true |}
  = {| Main.status := Main.Exit 1;
       Main.stdout := [Main.FileInfo "foo.hgt" 2 1 1 1;
                       Main.InvalidHemisphere "f" "foo.hgt"];
       Main.buffer := [];
       Main.files := [] |}.
Proof. vm_compute. reflexivity. Qed.

(** * More on the range scanner *)

Section ScannerMore.
Import Sample Scanner Describe.





End ScannerMore.







(** * Bytes, words and the two byte orders *)

Section WordFacts.
Import Raster Sample ByteOrder Describe.



(** The same two bytes in the other order. *)
Lemma bytes16_swap (u : Z) :
  bytes16 false u = (snd (bytes16 true u), fst (bytes16 true u)).
Proof. reflexivity. Qed.

Lemma word16_swap (a b : byte) : word16 true b a = word16 false a b.
Proof. unfold word16. lia. Qed.

Lemma encode_length (is_little_endian : bool) (values : list Z) :
  length (encode is_little_endian values) = (2 * length values)%nat.
Proof.
  induction values as [|u values IH]; cbn [encode length].
  - reflexivity.
  - destruct (bytes16 is_little_endian u). cbn [length]. lia.
Qed.

Lemma samples_length (is_little_endian : bool) (raster : list byte) (n : nat) :
  length raster = (2 * n)%nat ->
  length (samples is_little_endian raster) = n.
Proof.
  revert raster. induction n as [|n IH]; intros raster Hlen.
  - destruct raster; [reflexivity | discriminate].
  - destruct raster as [|a [|b rest]]; simpl in Hlen; try lia.
    cbn [samples length]. f_equal. apply IH. lia.
Qed.


(** The exchange of the pairs turns the buffer of one byte order into the
    buffer of the other. *)
Lemma map_pairs_swap_encode (values : list Z) :
  map_pairs swap (encode true values) = Some (encode false values).
Proof.
  induction values as [|u values IH]; cbn [encode].
  - reflexivity.
  - rewrite bytes16_swap. destruct (bytes16 true u) as [b0 b1].
    cbn [map_pairs swap mbind option_bind fst snd]. rewrite IH. reflexivity.
Qed.

Lemma map_pairs_swap_samples (raster : list byte) :
  exists swapped,
    map_pairs swap raster = Some swapped
    /\ length swapped = length raster
    /\ samples true swapped = samples false raster.
Proof.
  induction raster as [|a|a b rest (swapped & IH & Hlen & Hs)] using list_pair_ind.
  - exists []. repeat split.
  - exists [a]. repeat split.
  - exists (b :: a :: swapped).
    cbn [map_pairs swap mbind option_bind fst snd]. rewrite IH.
    repeat split.
    + simpl. lia.
    + cbn [samples]. rewrite word16_swap, Hs. reflexivity.
Qed.

(** After the first pass the host reads, in its own byte order, the
    big-endian samples of the file. *)
Lemma normalize_native (is_little_endian : bool) (raster : list byte) :
  Nat.Even (length raster) ->
  exists native,
    normalize is_little_endian (Z.of_nat (length raster)) raster = Some native
    /\ length native = length raster
    /\ samples is_little_endian native = samples false raster.
Proof.
  intros [n Hlen]. destruct is_little_endian.
  - rewrite (normalize_little_endian raster n Hlen).
    apply map_pairs_swap_samples.
  - exists raster. repeat split.
Qed.

(** The second pass leaves the big-endian buffer of the values that the
    host has written in its own byte order. *)
Lemma normalize_encode (is_little_endian : bool) (values : list Z) :
  normalize is_little_endian
            (Z.of_nat (length (encode is_little_endian values)))
            (encode is_little_endian values)
  = Some (encode false values).
Proof.
  destruct is_little_endian; [|reflexivity].
  rewrite (normalize_little_endian _ (length values) (encode_length true values)).
  apply map_pairs_swap_encode.
Qed.

End WordFacts.





(** * More on the rescaler *)

Section RescalerMore.
Import Raster Sample Scanner Rescaler Describe.

Lemma value_rescaled (minimum maximum raw : Z) :
  -32768 <= minimum <= 32768 -> -32768 <= maximum <= 32767 ->
  minimum < maximum ->
  (raw <> sentinel -> minimum <= raw <= maximum) ->
  rescaled minimum maximum raw = Some (value minimum maximum raw)
  /\ 0 <= value minimum maximum raw <= 65535.
Proof.
  intros Hmin Hmax Hd Hraw. unfold value, sentinel in *.
  destruct (Z.eqb_spec raw (-32768)) as [->|Hne].
  - split; [reflexivity | lia].
  - specialize (Hraw Hne). split.
    + apply rescaled_in_range; unfold sentinel; lia.
    + pose proof (quotient_bounds minimum maximum raw Hd Hraw). lia.
Qed.


End RescalerMore.

(** X6. For all 16-bit samples and bounds, the binary64 expression of
    line 251 and its conversion to [uint16_t] give the integer quotient
    [(svalue - minimum) * 65534 / (maximum - minimum)] truncated toward
    zero; the conversion is undefined exactly when [maximum = minimum] or
    the quotient is not in [[0, 65535]]; the sentinel gives 65535. *)
Theorem rescale_double_is_integer_quotient (minimum maximum svalue : Z) :
  -32768 <= minimum <= 32768 -> -32768 <= maximum <= 32768 ->
  -32768 <= svalue <= 32767 ->
  Rescaler.rescaled minimum maximum svalue
  = if svalue =? -32768 then Some 65535
    else if maximum - minimum =? 0 then None
    else if (0 <=? Z.quot ((svalue - minimum) * 65534) (maximum - minimum))
            && (Z.quot ((svalue - minimum) * 65534) (maximum - minimum)
                <=? 65535)
         then Some (Z.quot ((svalue - minimum) * 65534) (maximum - minimum))
         else None.
Proof. intros Hmin Hmax Hs. apply rescaled_int_spec; assumption. Qed.

Lemma rescale_double_is_integer_quotient_witness :
  Rescaler.rescaled (-120) 4000 1234 = Some 21537.
Proof.
  rewrite (rescale_double_is_integer_quotient (-120) 4000 1234
             ltac:(lia) ltac:(lia) ltac:(lia)).
  reflexivity.
Defined.

(** X7. Under a range with [minimum < maximum] the minimum is rescaled to
    0 and the maximum to 65534, as the comment of lines 238-239 says. *)
Theorem rescale_endpoints (minimum maximum : Z) :
  -32767 <= minimum <= 32767 -> -32768 <= maximum <= 32767 ->
  minimum < maximum ->
  Rescaler.rescaled minimum maximum minimum = Some 0
  /\ Rescaler.rescaled minimum maximum maximum = Some 65534.
Proof.
  intros Hmin Hmax Hd. split.
  - rewrite rescaled_in_range by (unfold Sample.sentinel; lia).
    unfold Rescaler.quotient. rewrite Z.sub_diag. cbn [Z.mul].
    rewrite Z.quot_0_l by lia. reflexivity.
  - rewrite rescaled_in_range by (unfold Sample.sentinel; lia).
    unfold Rescaler.quotient. rewrite Z.mul_comm, Z.quot_mul by lia.
    reflexivity.
Qed.

Lemma rescale_endpoints_witness :
  Rescaler.rescaled (-120) 4000 (-120) = Some 0
  /\ Rescaler.rescaled (-120) 4000 4000 = Some 65534.
Proof.
  apply (rescale_endpoints (-120) 4000); lia.
Defined.

(** X8. When the scan of a grid ends with [minimum < maximum] and no
    sample above the maximum, the rescale loop is defined and leaves, in
    the byte order of the host, the buffer of the values
    [(raw - minimum) * 65534 / (maximum - minimum)] truncated, with 65535
    at the sentinel samples; every value is a [uint16_t]. *)
Theorem rescale_writes_values (is_little_endian : bool) (raster : list byte)
        (range : Scanner.ElevationRange) :
  Nat.Even (length raster) ->
  Scanner.scan is_little_endian (Z.of_nat (length raster)) raster = Some range ->
  Scanner.minimum range < Scanner.maximum range ->
  (forall raw, In raw (Sample.samples is_little_endian raster) ->
               raw <> Sample.sentinel -> raw <= Scanner.maximum range) ->
  Rescaler.rescale is_little_endian (Z.of_nat (length raster))
                   (Scanner.minimum range) (Scanner.maximum range) raster
  = Some (Sample.encode is_little_endian
            (map (Describe.value (Scanner.minimum range) (Scanner.maximum range))
                 (Sample.samples is_little_endian raster)))
  /\ Forall (fun u => 0 <= u <= 65535)
            (map (Describe.value (Scanner.minimum range) (Scanner.maximum range))
                 (Sample.samples is_little_endian raster)).
Proof.
  intros Heven Hscan Hd Hcover.
  rewrite scan_samples_spec in Hscan by assumption. injection Hscan as <-.
  pose proof (samples_int16 is_little_endian raster) as Hint.
  destruct (scan_samples_scanned _ Hint) as (Hmin & Hmax & Hlow).
  set (range := Scanner.scan_samples (Sample.samples is_little_endian raster)) in *.
  assert (Hvalue : forall raw,
             In raw (Sample.samples is_little_endian raster) ->
             Rescaler.rescaled (Scanner.minimum range) (Scanner.maximum range) raw
             = Some (Describe.value (Scanner.minimum range)
                                    (Scanner.maximum range) raw)
             /\ 0 <= Describe.value (Scanner.minimum range)
                                    (Scanner.maximum range) raw <= 65535).
  { intros raw Hin. apply value_rescaled; try lia.
    intros Hne. specialize (Hlow raw Hin Hne).
    specialize (Hcover raw Hin Hne). lia. }
  split.
  - rewrite rescale_spec by assumption.
    rewrite (mapM_total _ (Describe.value (Scanner.minimum range)
                                          (Scanner.maximum range)))
      by (intros raw Hin; apply Hvalue, Hin).
    reflexivity.
  - apply List.Forall_forall. intros u Hu. apply in_map_iff in Hu.
    destruct Hu as (raw & <- & Hin). apply Hvalue, Hin.
Qed.

Lemma rescale_writes_values_witness :
  Rescaler.rescale true 6 0 3 [x00; x00; x03; x00; x01; x00]
  = Some (Sample.encode true [0; 65534; 21844]).
Proof.
  refine (proj1 (rescale_writes_values true [x00; x00; x03; x00; x01; x00]
                   {| Scanner.minimum := 0; Scanner.maximum := 3;
                      Scanner.invalid := 0 |} _ eq_refl _ _)).
  - exists 3%nat. reflexivity.
  - cbn. lia.
  - intros raw Hin _. vm_compute in Hin.
    destruct Hin as [<- | [<- | [<- | []]]]; cbn; lia.
Defined.



(** * The tile loops around any tile body *)

Section TileLoopsMore.
Import TilePlanner Describe.

Context {S E : Type}.
Variable tile : Offsets -> S -> E + S.
Variables cols subwidth subheight : Z.

Lemma run_tiles_app (os1 os2 : list Offsets) (s : S) :
  run_tiles tile (os1 ++ os2) s
  = match run_tiles tile os1 s with
    | inl e => inl e
    | inr s' => run_tiles tile os2 s'
    end.
Proof.
  revert s. induction os1 as [|o os1 IH]; intros s; cbn [app run_tiles].
  - reflexivity.
  - destruct (tile o s) as [e|s']; [reflexivity | apply IH].
Qed.

Lemma col_rounds_run (n : nat) :
  forall (o : Offsets) (s : S),
    iterate n (col_round tile subheight) (o, s)
    = match run_tiles tile
              (map (fun c =>
                      {| row_offset := row_offset o;
                         col_offset := col_offset o
                                       + Z.of_nat c * (subheight - 1) |})
                   (seq 0 n)) s with
      | inl e => inl e
      | inr s' =>
          inr ({| row_offset := row_offset o;
                  col_offset := col_offset o + Z.of_nat n * (subheight - 1) |},
               s')
      end.
Proof.
  induction n as [|n IH]; intros o s.
  - cbn [iterate seq map run_tiles]. destruct o as [r c].
    cbn [row_offset col_offset]. do 3 f_equal. lia.
  - cbn [iterate seq map run_tiles]. unfold col_round at 1. cbn [fst snd].
    replace {| row_offset := row_offset o;
               col_offset := col_offset o + Z.of_nat 0 * (subheight - 1) |}
      with o by (destruct o as [r c]; cbn [row_offset col_offset]; f_equal; lia).
    destruct (tile o s) as [e|s']; [reflexivity|].
    rewrite IH. unfold next_col. cbn [row_offset col_offset].
    rewrite <- List.seq_shift, List.map_map.
    replace (map (fun x : nat =>
                    {| row_offset := row_offset o;
                       col_offset := col_offset o + (subheight - 1)
                                     + Z.of_nat x * (subheight - 1) |})
                 (seq 0 n))
      with (map (fun x : nat =>
                   {| row_offset := row_offset o;
                      col_offset := col_offset o
                                    + Z.of_nat (Datatypes.S x) * (subheight - 1) |})
                (seq 0 n))
      by (apply List.map_ext; intros c; f_equal; lia).
    destruct (run_tiles tile _ s') as [e|s'']; [reflexivity|].
    do 3 f_equal. lia.
Qed.

Lemma row_rounds_run (m : nat) :
  forall (r0 : Z) (s : S),
    iterate m (row_round tile cols subwidth subheight)
            ({| row_offset := r0; col_offset := 0 |}, s)
    = match run_tiles tile
              (flat_map
                 (fun r =>
                    map (fun c =>
                           {| row_offset := r0 + Z.of_nat r * (subwidth - 1);
                              col_offset := Z.of_nat c * (subheight - 1) |})
                        (seq 0 (Z.to_nat cols)))
                 (seq 0 m)) s with
      | inl e => inl e
      | inr s' =>
          inr ({| row_offset := r0 + Z.of_nat m * (subwidth - 1);
                  col_offset := 0 |}, s')
      end.
Proof.
  induction m as [|m IH]; intros r0 s.
  - cbn [iterate seq flat_map run_tiles]. do 3 f_equal. lia.
  - cbn [iterate seq flat_map]. unfold row_round at 1. rewrite col_rounds_run.
    rewrite run_tiles_app. cbn [row_offset col_offset].
    replace (map (fun c : nat =>
                    {| row_offset := r0 + Z.of_nat 0 * (subwidth - 1);
                       col_offset := Z.of_nat c * (subheight - 1) |})
                 (seq 0 (Z.to_nat cols)))
      with (map (fun c : nat =>
                   {| row_offset := r0;
                      col_offset := 0 + Z.of_nat c * (subheight - 1) |})
                (seq 0 (Z.to_nat cols)))
      by (apply List.map_ext; intros c; f_equal; lia).
    destruct (run_tiles tile _ s) as [e|s']; [reflexivity|].
    unfold next_row. cbn [fst snd row_offset col_offset].
    rewrite IH. rewrite flat_map_seq_shift.
    replace (flat_map
               (fun r : nat =>
                  map (fun c : nat =>
                         {| row_offset := r0 + (subwidth - 1)
                                          + Z.of_nat r * (subwidth - 1);
                            col_offset := Z.of_nat c * (subheight - 1) |})
                      (seq 0 (Z.to_nat cols)))
               (seq 0 m))
      with (flat_map
              (fun r : nat =>
                 map (fun c : nat =>
                        {| row_offset := r0 + Z.of_nat (Datatypes.S r)
                                              * (subwidth - 1);
                           col_offset := Z.of_nat c * (subheight - 1) |})
                     (seq 0 (Z.to_nat cols)))
              (seq 0 m))
      by (apply List.flat_map_ext; intros r; apply List.map_ext; intros c;
          f_equal; lia).
    destruct (run_tiles tile _ s') as [e|s'']; [reflexivity|].
    do 3 f_equal. lia.
Qed.

End TileLoopsMore.

Section VisitedFacts.
Import TilePlanner Describe.

Lemma visited_offsets (rows cols subwidth subheight : Z) :
  visited rows cols subwidth subheight
  = flat_map (fun r => map (offsets_at subwidth subheight r)
                           (seq 0 (Z.to_nat cols)))
             (seq 0 (Z.to_nat rows)).
Proof.
  unfold visited, tile_loops, origin. rewrite row_rounds. reflexivity.
Qed.

Lemma tile_loops_run {S E : Type} (tile : Offsets -> S -> E + S)
      (rows cols subwidth subheight : Z) (s : S) :
  tile_loops tile cols subwidth subheight rows s
  = match run_tiles tile (visited rows cols subwidth subheight) s with
    | inl e => inl e
    | inr s' =>
        inr ({| row_offset := Z.of_nat (Z.to_nat rows) * (subwidth - 1);
                col_offset := 0 |}, s')
    end.
Proof.
  unfold tile_loops, origin. rewrite row_rounds_run, visited_offsets.
  reflexivity.
Qed.


End VisitedFacts.




(** * The conversion without the byte order of the host *)

Section ConvertFacts.
Import Raster Sample Scanner Rescaler TilePlanner Emitter Describe.

Lemma convert_converted (env : Main.Environment) (out : list Main.Diagnostic)
      (base_name : string) (width rows cols subwidth subheight : Z)
      (contents : list byte) :
  Nat.Even (length contents) ->
  Main.convert env out base_name width rows cols subwidth subheight
               (Z.of_nat (length contents)) contents
  = converted env out base_name width rows cols subwidth subheight contents.
Proof.
  intros Heven. unfold Main.convert, converted.
  destruct (Z.of_nat (length contents) =? 0); [reflexivity|].
  destruct (normalize_native (Main.is_little_endian env) contents Heven)
    as (native & Hnorm & Hlen & Hsamples).
  rewrite Hnorm. rewrite <- Hlen.
  assert (Heven' : Nat.Even (length native)) by (rewrite Hlen; exact Heven).
  rewrite scan_samples_spec by exact Heven'.
  rewrite rescale_spec by exact Heven'.
  rewrite Hsamples.
  set (grid := samples false contents).
  set (range := scan_samples grid).
  destruct (mapM (rescaled (minimum range) (maximum range)) grid)
    as [values|] eqn:Hvalues; cbn [mbind option_bind]; [|reflexivity].
  assert (Hsize : length native
                  = length (encode (Main.is_little_endian env) values)).
  { rewrite encode_length, (mapM_option_length _ _ _ Hvalues).
    destruct Heven' as [n Hn]. rewrite Hn. unfold grid. rewrite <- Hsamples.
    rewrite (samples_length _ native n Hn). reflexivity. }
  rewrite Hsize, normalize_encode.
  destruct (subheight <? 0); [reflexivity|].
  rewrite tile_loops_run.
  destruct (run_tiles _ _ []) as [written|written]; reflexivity.
Qed.

(** The buffer length that passes the size check is even. *)
Lemma data_size_even (contents : list byte) (pixel_count : Z) :
  Z.of_nat (length contents) = Main.to_int64 (to_size_t (pixel_count * 2)) ->
  Nat.Even (length contents).
Proof.
  intros Hsize. unfold Main.to_int64, to_size_t in Hsize.
  assert (Heven : exists k, (pixel_count * 2) mod 2 ^ 64 = 2 * k).
  { exists (pixel_count mod 2 ^ 63).
    change (2 ^ 64) with (2 ^ 63 * 2).
    rewrite Z.mul_mod_distr_r by lia. ring. }
  destruct Heven as [k Hk]. rewrite Hk in Hsize.
  destruct (Z.ltb_spec (2 * k) (2 ^ 63)).
  - exists (Z.to_nat k). lia.
  - exists (Z.to_nat (k - 2 ^ 63)). lia.
Qed.

Lemma write_tile_on_host (is_little_endian : bool) (env : Main.Environment)
      (base_name : string) (width subwidth subheight : Z)
      (minf deltaf : spec_float) :
  Main.write_tile (on_host is_little_endian env) base_name width subwidth
                  subheight minf deltaf
  = Main.write_tile env base_name width subwidth subheight minf deltaf.
Proof. reflexivity. Qed.

Lemma run_tiles_prefix (env : Main.Environment) (base_name : string)
      (width subwidth subheight : Z) (minf deltaf : spec_float)
      (os : list Offsets) :
  forall written,
    exists (k : nat) (done : list (string * PngImage)),
      (k <= length os)%nat
      /\ mapM (tile_file base_name width subwidth subheight minf deltaf)
              (take k os) = Some done
      /\ match run_tiles (Main.write_tile env base_name width subwidth
                                          subheight minf deltaf) os written with
         | inl (failure, files) =>
             files = written ++ done
             /\ exists o,
                 os !! k = Some o
                 /\ match failure with
                    | Main.ShortWrite =>
                        Main.fopen_ok env (subname base_name o) = true
                        /\ Main.write_ok env (subname base_name o) = false
                    | Main.Crash =>
                        image width subwidth subheight minf deltaf o = None
                        \/ Main.fopen_ok env (subname base_name o) = false
                    end
         | inr files => k = length os /\ files = written ++ done
         end.
Proof.
  induction os as [|o os IH]; intros written; cbn [run_tiles].
  - exists 0%nat, []. cbn [length]. rewrite app_nil_r. repeat split. lia.
  - unfold Main.write_tile at 1.
    destruct (image width subwidth subheight minf deltaf o) as [png|] eqn:Himage.
    + destruct (Main.fopen_ok env (subname base_name o)) eqn:Hopen; cbn [negb].
      * destruct (Main.write_ok env (subname base_name o)) eqn:Hok.
        -- destruct (IH (written ++ [(subname base_name o, png)]))
             as (k & done & Hk & Hdone & Hrun).
           exists (Datatypes.S k), ((subname base_name o, png) :: done).
           split; [cbn [length]; lia|]. split.
           ++ assert (Hfile : tile_file base_name width subwidth subheight
                                        minf deltaf o
                              = Some (subname base_name o, png))
                by (unfold tile_file; rewrite Himage; reflexivity).
              cbn [take mapM]. rewrite Hfile.
              cbn [mbind option_bind]. rewrite Hdone. reflexivity.
           ++ destruct (run_tiles _ os _) as [[failure files]|files].
              ** destruct Hrun as (-> & Hfail). rewrite <- app_assoc.
                 split; [reflexivity | exact Hfail].
              ** destruct Hrun as (-> & ->). cbn [length].
                 rewrite <- app_assoc. split; reflexivity.
        -- exists 0%nat, []. cbn [length take]. rewrite app_nil_r.
           repeat split; try lia. exists o. repeat split; assumption.
      * exists 0%nat, []. cbn [length take]. rewrite app_nil_r.
        repeat split; try lia. exists o. split; [reflexivity|].
        right. exact Hopen.
    + exists 0%nat, []. cbn [length take]. rewrite app_nil_r.
      repeat split; try lia. exists o. split; [reflexivity|].
      left. exact Himage.
Qed.

End ConvertFacts.

(** X12. The run gives the same status, output, buffer and files on a
    little-endian and on a big-endian host. *)
Theorem main_host_independent (env : Main.Environment) :
  Main.main (Describe.on_host true env) = Main.main (Describe.on_host false env).
Proof.
  unfold Main.main. cbn [Main.argv Main.hgt_file Describe.on_host].
  destruct (Main.usage _); [reflexivity|].
  destruct (Main.dimensions _) as [[[[width height] rows] cols]|];
    [|reflexivity].
  destruct (CInt.mul width height) as [product|]; [|reflexivity].
  destruct (Main.hgt_file env) as [contents|]; [|reflexivity].
  unfold Main.process.
  destruct (TilePlanner.verify _ _ _ _) as [[e|]|];
    [reflexivity | reflexivity |].
  match goal with
  | |- context [negb (?a =? ?b)] => destruct (Z.eqb_spec a b) as [Hsize|]
  end; [|reflexivity].
  cbn [negb]. destruct (FileName.base_name _); [|reflexivity].
  destruct (negb _ || negb _); [reflexivity|].
  apply data_size_even in Hsize as Heven. rewrite <- Hsize.
  rewrite !convert_converted by exact Heven.
  unfold Describe.converted. rewrite !write_tile_on_host. reflexivity.
Qed.

(** X13. Once the arguments and the file name are accepted, the buffer
    that the images point into is, on either host, the big-endian buffer
    of the rescaled big-endian samples of the file, and the scan and the
    rescaling are those of that grid: the run is [Describe.converted]. *)
Theorem convert_is_host_free (env : Main.Environment)
        (out : list Main.Diagnostic) (base_name : string)
        (width rows cols subwidth subheight : Z) (contents : list byte) :
  Nat.Even (length contents) ->
  Main.convert env out base_name width rows cols subwidth subheight
               (Z.of_nat (length contents)) contents
  = Describe.converted env out base_name width rows cols subwidth subheight
                       contents.
Proof. apply convert_converted. Qed.

Lemma convert_is_host_free_witness :
  Main.buffer
    (Main.convert
       {| Main.argv := []; Main.hgt_file := None;
          Main.is_little_endian := true; Main.fopen_ok := fun _ => true;
          Main.write_ok := fun _ => true |}
       [] "N00E000" 2 1 1 2 1 4 [x00; x05; x00; x07])
  = Sample.encode false [0; 65534].
Proof.
  pose proof (convert_is_host_free
                {| Main.argv := []; Main.hgt_file := None;
                   Main.is_little_endian := true;
                   Main.fopen_ok := fun _ => true;
                   Main.write_ok := fun _ => true |}
                [] "N00E000" 2 1 1 2 1 [x00; x05; x00; x07]
                ltac:(exists 2%nat; reflexivity)) as H.
  change (Z.of_nat (length [x00; x05; x00; x07])) with 4 in H.
  rewrite H. vm_compute. reflexivity.
Defined.

(** X14. The files of a run are written in the order of the tile loops:
    they are the files of the first [k] visited tiles, each with the name
    [base.row_offset.col_offset.png] and the image of its tile; [k] is
    the number of all tiles when the status is 0, and when a run on a
    file that is not empty ends with status 1, tile [k] is the first one
    whose write failed, on a stream that [fopen] did give. *)
Theorem files_follow_visits (env : Main.Environment)
        (out : list Main.Diagnostic) (base_name : string)
        (width rows cols subwidth subheight : Z) (contents : list byte) :
  Nat.Even (length contents) ->
  let o := Main.convert env out base_name width rows cols subwidth subheight
                        (Z.of_nat (length contents)) contents in
  let range := Scanner.scan_samples (Sample.samples false contents) in
  let file :=
    Describe.tile_file base_name width subwidth subheight
      (Rescaler.minf_of (Scanner.minimum range))
      (Rescaler.deltaf_of (Scanner.minimum range) (Scanner.maximum range)) in
  let tiles := Describe.visited rows cols subwidth subheight in
  exists k : nat,
    (k <= length tiles)%nat
    /\ mapM file (take k tiles) = Some (Main.files o)
    /\ (Main.status o = Main.Exit 0 -> k = length tiles)
    /\ (contents <> [] -> Main.status o = Main.Exit 1 ->
        exists t, tiles !! k = Some t
                  /\ Main.fopen_ok env (Emitter.subname base_name t) = true
                  /\ Main.write_ok env (Emitter.subname base_name t) = false).
Proof.
  intros Heven o range file tiles. subst o.
  rewrite convert_converted by exact Heven. unfold Describe.converted.
  fold range. fold tiles.
  destruct (Z.eqb_spec (Z.of_nat (length contents)) 0) as [Hzero|Hpos].
  { exists 0%nat. repeat split; cbn; try lia; try discriminate.
    intros Hne. destruct contents; [congruence | discriminate]. }
  destruct (CInt.max <? Z.of_nat (length contents));
    [exists 0%nat; repeat split; cbn; try lia; discriminate|].
  destruct (mapM (Rescaler.rescaled _ _) _) as [values|];
    [|exists 0%nat; repeat split; cbn; try lia; discriminate].
  destruct (subheight <? 0);
    [exists 0%nat; repeat split; cbn; try lia; discriminate|].
  destruct (run_tiles_prefix env base_name width subwidth subheight
              (Rescaler.minf_of (Scanner.minimum range))
              (Rescaler.deltaf_of (Scanner.minimum range) (Scanner.maximum range))
              tiles []) as (k & done & Hk & Hdone & Hrun).
  fold file in Hdone.
  destruct (Describe.run_tiles _ tiles []) as [[failure written]|written].
  - destruct Hrun as (-> & t & Ht & Hfail). exists k.
    destruct failure; cbn [Main.files Main.status app].
    + repeat split; try lia; try discriminate. exact Hdone.
    + split; [lia|]. split; [exact Hdone|]. split; [discriminate|].
      intros _ _. exists t. destruct Hfail as (Hopen & Hwrite).
      repeat split; assumption.
  - destruct Hrun as (-> & ->). exists (length tiles).
    cbn [Main.files Main.status app].
    repeat split; try lia; try discriminate. exact Hdone.
Qed.

Lemma files_follow_visits_witness :
  exists k : nat,
    (k <= 1)%nat
    /\ map fst
         (Main.files
            (Main.convert
               {| Main.argv := []; Main.hgt_file := None;
                  Main.is_little_endian := true;
                  Main.fopen_ok := fun _ => true;
                  Main.write_ok := fun _ => true |}
               [] "N00E000" 2 1 1 2 1 4 [x00; x05; x00; x07]))
       = take k ["N00E000.0.0.png"%string].
Proof.
  destruct (files_follow_visits
              {| Main.argv := []; Main.hgt_file := None;
                 Main.is_little_endian := true;
                 Main.fopen_ok := fun _ => true;
                 Main.write_ok := fun _ => true |}
              [] "N00E000" 2 1 1 2 1 [x00; x05; x00; x07]
              ltac:(exists 2%nat; reflexivity)) as (k & Hk & Hfiles & _).
  exists k. split; [exact Hk|].
  destruct k as [|[|k]]; vm_compute in Hfiles;
    [discriminate Hfiles | vm_compute; reflexivity | vm_compute; reflexivity].
Defined.

(** * The geometry of a validated plan *)

Section GeometryFacts.
Import TilePlanner Emitter Describe.

Lemma verify_accepts (width height rows cols : Z) :
  verify width height rows cols = None ->
  1 <= rows /\ 1 <= cols
  /\ (cols > 1 -> Z.rem (width - 1) cols = 0)
  /\ (rows > 1 -> Z.rem (height - 1) rows = 0).
Proof.
  unfold verify.
  destruct (Z.ltb_spec cols 1); [discriminate|].
  destruct (Z.ltb_spec rows 1); [discriminate|]. cbn [orb].
  destruct (Z.gtb_spec cols 1) as [Hc|Hc]; cbn [andb].
  - destruct (CInt.in_range (width - 1)); cbn [negb]; [|discriminate].
    destruct (Z.eqb_spec (Z.rem (width - 1) cols) 0) as [Hw|Hw];
      [|discriminate]. cbn [negb].
    destruct (Z.gtb_spec rows 1) as [Hr|Hr]; cbn [andb].
    + destruct (CInt.in_range (height - 1)); cbn [negb]; [|discriminate].
      destruct (Z.eqb_spec (Z.rem (height - 1) rows) 0); [|discriminate].
      intros _. repeat split; auto; lia.
    + intros _. repeat split; auto; lia.
  - destruct (Z.gtb_spec rows 1) as [Hr|Hr]; cbn [andb].
    + destruct (CInt.in_range (height - 1)); cbn [negb]; [|discriminate].
      destruct (Z.eqb_spec (Z.rem (height - 1) rows) 0); [|discriminate].
      intros _. repeat split; auto; lia.
    + intros _. repeat split; auto; lia.
Qed.

(** One dimension: [n] pixels cut into [parts] tiles. *)
Lemma subdimension_exact (n parts : Z) :
  1 <= n -> 1 <= parts -> (parts > 1 -> Z.rem (n - 1) parts = 0) ->
  parts * (Z.quot n parts + (if parts >? 1 then 1 else 0) - 1) = n - 1.
Proof.
  intros Hn Hp Hrem. destruct (Z.gtb_spec parts 1) as [Hgt|Hle].
  - specialize (Hrem ltac:(lia)).
    pose proof (Z.quot_rem' (n - 1) parts) as Hqr. rewrite Hrem in Hqr.
    assert (Hq : 0 <= Z.quot (n - 1) parts) by (apply Z.quot_pos; lia).
    rewrite Z.quot_div_nonneg by lia.
    replace (n / parts) with (Z.quot (n - 1) parts); [lia|].
    apply Z.div_unique with (r := 1); lia.
  - assert (parts = 1) by lia. subst parts. rewrite Z.quot_1_r. lia.
Qed.

End GeometryFacts.

(** X15. For a validated request on a grid of at least one row and one
    column, the tiles fit the grid with one shared pixel between
    neighbours: [cols * (subwidth - 1) = width - 1] and
    [rows * (subheight - 1) = height - 1]. *)
Theorem tiles_fit_grid (width height rows cols : Z) :
  TilePlanner.verify width height rows cols = None ->
  1 <= width -> 1 <= height ->
  cols * (TilePlanner.subwidth width cols - 1) = width - 1
  /\ rows * (TilePlanner.subheight height rows - 1) = height - 1.
Proof.
  intros Hverify Hw Hh.
  destruct (verify_accepts _ _ _ _ Hverify) as (Hr & Hc & Hremw & Hremh).
  unfold TilePlanner.subwidth, TilePlanner.subheight.
  split; apply subdimension_exact; assumption.
Qed.

Lemma tiles_fit_grid_witness :
  3 * (TilePlanner.subwidth 3601 3 - 1) = 3601 - 1
  /\ 3 * (TilePlanner.subheight 3601 3 - 1) = 3601 - 1.
Proof.
  apply (tiles_fit_grid 3601 3601 3 3); [reflexivity | lia | lia].
Defined.

(** X16. On a square grid whose pixel count is an [int], cut into as many
    rows as columns, the row pointers of every tile are defined, one for
    each row of the tile; every row that a tile hands to the encoder ends
    inside the buffer, and starts at a byte index that is not negative
    except for the first row of the first tile, which starts 2 bytes
    before the buffer. *)
Theorem square_tiles_rows (width rows : Z) (o : TilePlanner.Offsets) :
  TilePlanner.verify width width rows rows = None ->
  1 <= width -> width * width <= CInt.max ->
  In o (TilePlanner.plan width width rows rows) ->
  exists pointers,
    Emitter.png_rows width (TilePlanner.subheight width rows) o = Some pointers
    /\ Z.of_nat (length pointers) = TilePlanner.subheight width rows
    /\ forall p, In p pointers ->
         p + TilePlanner.subwidth width rows * 2 <= width * width * 2
         /\ -2 <= p
         /\ (p < 0 -> o = TilePlanner.origin).
Proof.
  intros Hverify Hw Hsize Ho.
  destruct (verify_accepts _ _ _ _ Hverify) as (Hr & _ & Hrem & _).
  pose proof (subdimension_exact width rows ltac:(lia) Hr Hrem) as Hfit.
  fold (TilePlanner.subwidth width rows) in Hfit.
  rewrite plan_offsets in Ho. apply in_flat_map in Ho.
  destruct Ho as (r & Hr' & Ho). apply in_map_iff in Ho.
  destruct Ho as (c & <- & Hc'). apply in_seq in Hr', Hc'.
  unfold TilePlanner.subheight in *. fold (TilePlanner.subwidth width rows) in *.
  set (sw := TilePlanner.subwidth width rows) in *.
  assert (Hsw : 0 <= sw - 1) by nia.
  assert (Hrow : 0 <= Z.of_nat r * (sw - 1) <= width - sw) by nia.
  assert (Hcol : 0 <= Z.of_nat c * (sw - 1) <= width - sw) by nia.
  unfold CInt.max in Hsize.
  eexists. split; [|split].
  - apply png_rows_exact;
      cbn [TilePlanner.row_offset TilePlanner.col_offset];
      unfold CInt.min, CInt.max; [nia | nia |].
    intros k Hk. nia.
  - rewrite length_map, length_seq. lia.
  - intros p Hp. apply in_map_iff in Hp.
    destruct Hp as (k & <- & Hk). apply in_seq in Hk.
    cbn [TilePlanner.row_offset TilePlanner.col_offset].
    repeat split; try nia.
    intros Hneg. unfold TilePlanner.origin. f_equal; nia.
Qed.

Lemma square_tiles_rows_witness :
  exists pointers,
    Emitter.png_rows 3601 1201 (Describe.offsets_at 1201 1201 0 1)
    = Some pointers
    /\ Z.of_nat (length pointers) = 1201
    /\ forall p, In p pointers ->
         p + 1201 * 2 <= 3601 * 3601 * 2
         /\ -2 <= p
         /\ (p < 0 -> Describe.offsets_at 1201 1201 0 1 = TilePlanner.origin).
Proof.
  apply (square_tiles_rows 3601 3 (Describe.offsets_at 1201 1201 0 1)).
  - reflexivity.
  - lia.
  - unfold CInt.max. lia.
  - rewrite plan_offsets. apply in_flat_map. exists 0%nat. split.
    + apply in_seq. cbn. lia.
    + apply in_map_iff. exists 1%nat. split; [reflexivity|].
      apply in_seq. cbn. lia.
Defined.

(** * The earlier version *)

(** X17. In the earlier single-image version the row pointers have no
    [- 1]: on a grid whose pixel count is an [int], pixel [(r, c)] of the
    image is the Grid sample of row [r] and column [c], and its two bytes
    lie inside the buffer. *)
Theorem legacy_rows_exact (width height : Z) (r c : nat) :
  0 <= width -> 0 <= height -> width * height <= CInt.max ->
  Z.of_nat r < height -> Z.of_nat c < width ->
  Legacy.pixel_byte width height r c
  = Some (Emitter.grid_byte width (Z.of_nat r) (Z.of_nat c))
  /\ 0 <= Emitter.grid_byte width (Z.of_nat r) (Z.of_nat c)
  /\ Emitter.grid_byte width (Z.of_nat r) (Z.of_nat c) + 2
     <= width * height * 2.
Proof.
  intros Hw Hh Hsize Hr Hc. unfold CInt.max in Hsize.
  assert (Hrows : Legacy.png_rows width height
                  = Some (map (fun k => 2 * (Z.of_nat k * width))
                              (seq 0 (Z.to_nat height)))).
  { unfold Legacy.png_rows. apply mapM_total. intros k Hk.
    apply in_seq in Hk. unfold Legacy.row_pointer, CInt.mul.
    rewrite in_range_checked by (unfold CInt.min, CInt.max; nia).
    cbn [mbind option_bind]. unfold Emitter.to_size_t.
    rewrite Z.mul_mod_idemp_l by lia.
    rewrite displacement_wrap by nia. f_equal. lia. }
  unfold Legacy.pixel_byte, Emitter.grid_byte. rewrite Hrows.
  cbn [mbind option_bind].
  change (map ?f ?l) with (f <$> l). rewrite list_lookup_fmap.
  rewrite lookup_seq_lt by lia.
  cbn [fmap option_fmap option_map mbind option_bind].
  repeat split; [f_equal; lia | nia | nia].
Qed.

Lemma legacy_rows_exact_witness :
  Legacy.pixel_byte 3601 3601 0 0 = Some (Emitter.grid_byte 3601 0 0)
  /\ 0 <= Emitter.grid_byte 3601 0 0
  /\ Emitter.grid_byte 3601 0 0 + 2 <= 3601 * 3601 * 2.
Proof.
  apply (legacy_rows_exact 3601 3601 0 0); unfold CInt.max; lia.
Defined.

(** * The checks before the conversion *)

Section CheckFacts.
Import CLib FileName.

Lemma digit_char (c : ascii) (d : Z) :
  digit c = Some d ->
  0 <= d <= 9 /\ isspace c = false
  /\ Ascii.eqb c "-" = false /\ Ascii.eqb c "+" = false.
Proof.
  unfold digit, isspace. intros Hd.
  destruct (Z.leb_spec 48 (Z.of_nat (nat_of_ascii c))) as [Hlo|]; [|discriminate].
  destruct (Z.leb_spec (Z.of_nat (nat_of_ascii c)) 57) as [Hhi|]; [|discriminate].
  cbn [andb] in Hd. injection Hd as <-.
  split; [lia|]. split; [|split].
  - destruct (Nat.eqb_spec (nat_of_ascii c) 32); [lia|].
    destruct (Nat.leb_spec 9 (nat_of_ascii c)); [|reflexivity].
    destruct (Nat.leb_spec (nat_of_ascii c) 13); [lia | reflexivity].
  - apply Ascii.eqb_neq. intros ->.
    change (Z.of_nat (nat_of_ascii "-")) with 45 in Hlo. lia.
  - apply Ascii.eqb_neq. intros ->.
    change (Z.of_nat (nat_of_ascii "+")) with 43 in Hlo. lia.
Qed.

(** [%2d] on two digits and [%3d] on three. *)
Lemma scan_int_2 (c1 c2 : ascii) (d1 d2 : Z) (rest : list ascii) :
  digit c1 = Some d1 -> digit c2 = Some d2 ->
  scan_int 2 (c1 :: c2 :: rest) = Some (10 * d1 + d2, rest).
Proof.
  intros H1 H2. destruct (digit_char c1 d1 H1) as (_ & Hs & Hm & Hp).
  unfold scan_int. cbn [skip_space]. rewrite Hs, Hm, Hp.
  cbn [scan_unsigned]. rewrite H1. cbn [more_digits]. rewrite H2.
  destruct rest; cbn [more_digits]; do 2 f_equal; lia.
Qed.

Lemma scan_int_3 (c1 c2 c3 : ascii) (d1 d2 d3 : Z) (rest : list ascii) :
  digit c1 = Some d1 -> digit c2 = Some d2 -> digit c3 = Some d3 ->
  scan_int 3 (c1 :: c2 :: c3 :: rest) = Some (100 * d1 + 10 * d2 + d3, rest).
Proof.
  intros H1 H2 H3. destruct (digit_char c1 d1 H1) as (_ & Hs & Hm & Hp).
  unfold scan_int. cbn [skip_space]. rewrite Hs, Hm, Hp.
  cbn [scan_unsigned]. rewrite H1. cbn [more_digits]. rewrite H2, H3.
  destruct rest; cbn [more_digits]; do 2 f_equal; lia.
Qed.

End CheckFacts.

(** X18. A name of the SRTM form, a hemisphere letter N or S, two digits,
    a hemisphere letter W or E, three digits and [.hgt], is read in full:
    [sscanf] gives the two letters and the two numbers, both hemisphere
    checks pass, and the base name is the name without [.hgt]. *)
Theorem srtm_name_accepted (h0 h1 c1 c2 c3 c4 c5 : ascii)
        (d1 d2 d3 d4 d5 : Z) :
  h0 = "N"%char \/ h0 = "S"%char -> h1 = "W"%char \/ h1 = "E"%char ->
  CLib.digit c1 = Some d1 -> CLib.digit c2 = Some d2 ->
  CLib.digit c3 = Some d3 -> CLib.digit c4 = Some d4 ->
  CLib.digit c5 = Some d5 ->
  let name := [h0; c1; c2; h1; c3; c4; c5]
              ++ list_ascii_of_string ".hgt" in
  FileName.sscanf name
  = {| FileName.hemi0 := h0; FileName.hemi1 := h1;
       FileName.ll0 := 10 * d1 + d2;
       FileName.ll1 := 100 * d3 + 10 * d4 + d5 |}
  /\ FileName.valid_hemi0 (FileName.sscanf name) = true
  /\ FileName.valid_hemi1 (FileName.sscanf name) = true
  /\ FileName.base_name name
     = Some (string_of_list_ascii [h0; c1; c2; h1; c3; c4; c5]).
Proof.
  intros Hh0 Hh1 H1 H2 H3 H4 H5 name.
  assert (Hscan : FileName.sscanf name
                  = {| FileName.hemi0 := h0; FileName.hemi1 := h1;
                       FileName.ll0 := 10 * d1 + d2;
                       FileName.ll1 := 100 * d3 + 10 * d4 + d5 |}).
  { unfold name, FileName.sscanf. cbn [app].
    rewrite (scan_int_2 c1 c2 d1 d2 _ H1 H2).
    rewrite (scan_int_3 c3 c4 c5 d3 d4 d5 _ H3 H4 H5). reflexivity. }
  rewrite Hscan. unfold FileName.valid_hemi0, FileName.valid_hemi1.
  cbn [FileName.hemi0 FileName.hemi1].
  split; [reflexivity|].
  split; [destruct Hh0 as [-> | ->]; reflexivity|].
  split; [destruct Hh1 as [-> | ->]; reflexivity|].
  unfold name, FileName.base_name. cbn. reflexivity.
Qed.

Lemma srtm_name_accepted_witness :
  FileName.sscanf (list_ascii_of_string "N36W113.hgt")
  = {| FileName.hemi0 := "N"; FileName.hemi1 := "W";
       FileName.ll0 := 10 * 3 + 6; FileName.ll1 := 100 * 1 + 10 * 1 + 3 |}.
Proof.
  apply (proj1 (srtm_name_accepted "N" "W" "3" "6" "1" "1" "3" 3 6 1 1 3
                  (or_introl eq_refl) (or_introl eq_refl)
                  eq_refl eq_refl eq_refl eq_refl eq_refl)).
Defined.

(** X19. A source file whose size is not twice the pixel count
    [width * height] is rejected with status 1 after the diagnostic of
    the two sizes, before its name is looked at and before anything is
    read or written. *)
Theorem wrong_size_rejected (env : Main.Environment) (contents : list byte)
        (width height rows cols product : Z) :
  Describe.started env contents width height rows cols product ->
  TilePlanner.verify width height rows cols = None ->
  Z.of_nat (length contents) <> width * height * 2 ->
  product = width * height
  /\ Main.main env
     = {| Main.status := Main.Exit 1;
          Main.stdout :=
            [Describe.file_info env contents width height product;
             Main.SizeMismatch (Z.of_nat (length contents))
                               (width * height * 2)];
          Main.buffer := [];
          Main.files := [] |}.
Proof.
  intros Hstart Hverify Hsize.
  rewrite (started_main _ _ _ _ _ _ _ Hstart).
  destruct Hstart as (_ & _ & Hmul & _).
  apply checked_in_range in Hmul as (-> & Hproduct).
  split; [reflexivity|].
  unfold Main.process. rewrite Hverify.
  rewrite data_size_product by exact Hproduct.
  destruct (Z.eqb_spec (Z.of_nat (length contents)) (width * height * 2));
    [contradiction | reflexivity].
Qed.

Lemma wrong_size_rejected_witness :
  Main.main
    {| Main.argv := ["hgt2png"; "N00E000.hgt"; "2"; "2"]%string;
       Main.hgt_file := Some [x00; x05];
       Main.is_little_endian := true;
       Main.fopen_ok := fun _ => true;
       Main.write_ok := fun _ => true |}
  = {| Main.status := Main.Exit 1;
       Main.stdout := [Main.FileInfo "N00E000.hgt" 2 2 2 4;
                       Main.SizeMismatch 2 (2 * 2 * 2)];
       Main.buffer := [];
       Main.files := [] |}.
Proof.
  apply (proj2 (wrong_size_rejected
                  {| Main.argv := ["hgt2png"; "N00E000.hgt"; "2"; "2"]%string;
                     Main.hgt_file := Some [x00; x05];
                     Main.is_little_endian := true;
                     Main.fopen_ok := fun _ => true;
                     Main.write_ok := fun _ => true |}
                  [x00; x05] 2 2 1 1 4
                  (conj eq_refl (conj eq_refl (conj eq_refl eq_refl)))
                  eq_refl ltac:(cbn; lia))).
Defined.

(** X20. A source name without a dot ends the run by the exception of
    [erase], which nothing catches, once the subdivision and the file
    size are accepted: no hemisphere diagnostic, no status, no file. *)
Theorem name_without_dot_terminates (env : Main.Environment) (source : string)
        (contents : list byte) (width height rows cols pixel_count : Z) :
  TilePlanner.verify width height rows cols = None ->
  Z.of_nat (length contents)
  = Main.to_int64 (Emitter.to_size_t (pixel_count * 2)) ->
  (forall c, In c (FileName.file_name source) -> c <> "."%char) ->
  Main.process env source contents width height rows cols pixel_count
  = {| Main.status := Main.Terminate;
       Main.stdout :=
         [Main.FileInfo source (Z.of_nat (length contents)) width height
                        pixel_count];
       Main.buffer := [];
       Main.files := [] |}.
Proof.
  intros Hverify Hsize Hdot.
  assert (Heq : (Z.of_nat (length contents)
                 =? Main.to_int64 (Emitter.to_size_t (pixel_count * 2)))
                = true) by (apply Z.eqb_eq; exact Hsize).
  unfold Main.process. rewrite Hverify, Heq. cbn [negb].
  assert (Hbase : FileName.base_name (FileName.file_name source) = None).
  { unfold FileName.base_name.
    induction (FileName.file_name source) as [|x name IH];
      [reflexivity|]. cbn [CLib.before_last option_map].
    specialize (IH (fun c Hc => Hdot c (or_intror Hc))).
    destruct (CLib.before_last "." name); [discriminate|].
    pose proof (Hdot x (or_introl eq_refl)) as Hx.
    apply Ascii.eqb_neq in Hx. rewrite Hx. reflexivity. }
  rewrite Hbase. reflexivity.
Qed.

Lemma name_without_dot_terminates_witness :
  Main.status
    (Main.process
       {| Main.argv := []; Main.hgt_file := None;
          Main.is_little_endian := true;
          Main.fopen_ok := fun _ => true;
          Main.write_ok := fun _ => true |}
       "N00E000" [x00; x05] 1 1 1 1 (Emitter.to_size_t (1 * 1)))
  = Main.Terminate.
Proof.
  rewrite (name_without_dot_terminates
             {| Main.argv := []; Main.hgt_file := None;
                Main.is_little_endian := true;
                Main.fopen_ok := fun _ => true;
                Main.write_ok := fun _ => true |}
             "N00E000" [x00; x05] 1 1 1 1 (Emitter.to_size_t (1 * 1))
             eq_refl eq_refl).
  - reflexivity.
  - intros c Hc. vm_compute in Hc.
    repeat (destruct Hc as [<- | Hc]; [discriminate|]). destruct Hc.
Defined.

(** X21. A run writes files only after every check has passed: the
    arguments were read, the source file was opened, is not empty and has
    at most [INT_MAX] bytes, the subdivision and the file size were
    accepted, the file name has a dot and both hemisphere letters are
    valid. *)
Theorem files_only_after_checks (env : Main.Environment) :
  Main.files (Main.main env) <> [] ->
  let file_name := FileName.file_name (Describe.source env) in
  let loc := FileName.sscanf file_name in
  exists contents width height rows cols product base,
    Describe.started env contents width height rows cols product
    /\ contents <> []
    /\ TilePlanner.verify width height rows cols = None
    /\ Z.of_nat (length contents) = width * height * 2
    /\ Z.of_nat (length contents) <= CInt.max
    /\ FileName.base_name file_name = Some base
    /\ FileName.valid_hemi0 loc = true
    /\ FileName.valid_hemi1 loc = true.
Proof.
  intros Hfiles file_name loc. revert Hfiles.
  unfold Main.main. fold (Describe.source env).
  destruct (Main.usage (Main.argv env)) eqn:Husage;
    [intros Hnone; exfalso; apply Hnone; reflexivity|].
  destruct (Main.dimensions (Main.argv env))
    as [[[[width height] rows] cols]|] eqn:Hdim;
    [|intros Hnone; exfalso; apply Hnone; reflexivity].
  destruct (CInt.mul width height) as [product|] eqn:Hmul;
    [|intros Hnone; exfalso; apply Hnone; reflexivity].
  destruct (Main.hgt_file env) as [contents|] eqn:Hfile;
    [|intros Hnone; exfalso; apply Hnone; reflexivity].
  assert (Hstart : Describe.started env contents width height rows cols product)
    by (repeat split; assumption).
  apply checked_in_range in Hmul as (-> & Hproduct).
  unfold Main.process.
  destruct (TilePlanner.verify width height rows cols) as [[e|]|] eqn:Hverify;
    [intros Hnone; exfalso; apply Hnone; reflexivity
    |intros Hnone; exfalso; apply Hnone; reflexivity|].
  rewrite data_size_product by exact Hproduct.
  destruct (Z.eqb_spec (Z.of_nat (length contents)) (width * height * 2))
    as [Hsize|]; [|intros Hnone; exfalso; apply Hnone; reflexivity].
  cbn [negb]. fold file_name.
  destruct (FileName.base_name file_name) as [base|] eqn:Hbase;
    [|intros Hnone; exfalso; apply Hnone; reflexivity].
  fold loc.
  destruct (FileName.valid_hemi0 loc) eqn:H0;
    [|intros Hnone; exfalso; apply Hnone; reflexivity].
  destruct (FileName.valid_hemi1 loc) eqn:H1;
    [|intros Hnone; exfalso; apply Hnone; reflexivity].
  cbn [negb orb]. unfold Main.convert.
  destruct (Z.eqb_spec (width * height * 2) 0) as [Hzero|Hzero];
    [intros Hnone; exfalso; apply Hnone; reflexivity|].
  destruct (Z.ltb_spec CInt.max (width * height * 2)) as [Hbig|Hbig];
    [intros Hnone; exfalso; apply Hnone; reflexivity|].
  intros Hfiles.
  exists contents, width, height, rows, cols, (width * height), base.
  split; [exact Hstart|].
  split; [intros ->; apply Hzero; rewrite <- Hsize; reflexivity|].
  split; [exact Hverify|]. split; [exact Hsize|]. split; [lia|].
  split; [reflexivity|]. split; reflexivity.
Qed.

Lemma files_only_after_checks_witness :
  Main.files
    (Main.main {| Main.argv := ["hgt2png"; "N00E000.hgt"; "2"; "1"]%string;
                  Main.hgt_file := Some [x00; x05; x00; x07];
                  Main.is_little_endian := true;
                  Main.fopen_ok := fun _ => true;
                  Main.write_ok := fun _ => true |}) <> []
  /\ exists contents,
       Some [x00; x05; x00; x07] = Some contents /\ contents <> [].
Proof.
  assert (Hfiles :
            Main.files
              (Main.main
                 {| Main.argv := ["hgt2png"; "N00E000.hgt"; "2"; "1"]%string;
                    Main.hgt_file := Some [x00; x05; x00; x07];
                    Main.is_little_endian := true;
                    Main.fopen_ok := fun _ => true;
                    Main.write_ok := fun _ => true |}) <> [])
    by (vm_compute; discriminate).
  split; [exact Hfiles|].
  destruct (files_only_after_checks _ Hfiles)
    as (contents & width & height & rows & cols & product & base
        & (_ & _ & _ & Hfile) & Hcontents & _).
  exists contents. split; [exact Hfile | exact Hcontents].
Defined.

(** * Samples outside the discovered range *)

(** X22. Under a range with [minimum < maximum], a sample above the
    maximum (the scan can miss the first sample of a grid) is never given
    a value of its own: it is rescaled to [0xFFFF], the code of missing
    data, or its conversion is undefined. *)
Theorem rescale_above_maximum (minimum maximum raw : Z) :
  -32767 <= minimum <= 32767 -> -32768 <= maximum <= 32767 ->
  minimum < maximum -> maximum < raw <= 32767 ->
  Rescaler.rescaled minimum maximum raw = Some 65535
  \/ Rescaler.rescaled minimum maximum raw = None.
Proof.
  intros Hmin Hmax Hd Hraw. rewrite rescaled_int_spec by lia.
  unfold Rescaler.rescaled_int.
  destruct (Z.eqb_spec raw (-32768)); [lia|].
  destruct (Z.eqb_spec (maximum - minimum) 0); [lia|]. cbv zeta.
  assert (Hq : 65535 <= Rescaler.quotient minimum maximum raw).
  { unfold Rescaler.quotient. apply Z.quot_le_lower_bound; nia. }
  destruct (Z.leb_spec 0 (Rescaler.quotient minimum maximum raw)); [|lia].
  destruct (Z.leb_spec (Rescaler.quotient minimum maximum raw) 65535);
    cbn [andb]; [left | right; reflexivity].
  f_equal. lia.
Qed.

Lemma rescale_above_maximum_witness :
  Rescaler.rescaled (-32767) 1 2 = Some 65535
  \/ Rescaler.rescaled (-32767) 1 2 = None.
Proof.
  apply (rescale_above_maximum (-32767) 1 2); lia.
Defined.

(** X23. When the scan ends with the maximum below the minimum (no
    sample ever took the branch of the maximum), the sample equal to the
    minimum is rescaled to 0 and the conversion of every other sample
    that is not the sentinel is undefined. *)
Theorem rescale_inverted_range (minimum maximum raw : Z) :
  -32767 <= minimum <= 32767 -> -32768 <= maximum <= 32767 ->
  maximum < minimum -> minimum <= raw <= 32767 ->
  Rescaler.rescaled minimum maximum raw
  = if raw =? minimum then Some 0 else None.
Proof.
  intros Hmin Hmax Hd Hraw. rewrite rescaled_int_spec by lia.
  unfold Rescaler.rescaled_int.
  destruct (Z.eqb_spec raw (-32768)); [lia|].
  destruct (Z.eqb_spec (maximum - minimum) 0); [lia|]. cbv zeta.
  unfold Rescaler.quotient.
  destruct (Z.eqb_spec raw minimum) as [->|Hne].
  - rewrite Z.sub_diag. cbn [Z.mul]. rewrite Z.quot_0_l by lia. reflexivity.
  - assert (Hq : Z.quot ((raw - minimum) * 65534) (maximum - minimum) <= -1).
    { replace (maximum - minimum) with (- (minimum - maximum)) by lia.
      rewrite Z.quot_opp_r by lia.
      assert (1 <= Z.quot ((raw - minimum) * 65534) (minimum - maximum));
        [|lia].
      apply Z.quot_le_lower_bound; nia. }
    destruct (Z.leb_spec 0 (Z.quot ((raw - minimum) * 65534)
                                   (maximum - minimum))); [lia|].
    reflexivity.
Qed.

Lemma rescale_inverted_range_witness :
  Rescaler.rescaled 5 (-32768) 9 = None.
Proof.
  rewrite (rescale_inverted_range 5 (-32768) 9) by lia. reflexivity.
Defined.

(** X24. Without a subdivision ([rows = cols = 1]) every grid is accepted
    and the plan is the one tile at the offsets [(0, 0)] that has the
    dimensions of the grid. *)
Theorem single_tile_plan (width height : Z) :
  TilePlanner.verify width height 1 1 = None
  /\ TilePlanner.subwidth width 1 = width
  /\ TilePlanner.subheight height 1 = height
  /\ TilePlanner.plan width height 1 1 = [TilePlanner.origin].
Proof.
  repeat split.
  - unfold TilePlanner.subwidth. change (1 >? 1) with false. cbv iota.
    rewrite Z.quot_1_r. lia.
  - unfold TilePlanner.subheight. change (1 >? 1) with false. cbv iota.
    rewrite Z.quot_1_r. lia.
Qed.
